(** * AssetTracker: the asset data layer and the spreadsheet interchange

    A shallow embedding of [server/routes.ts], [server/storage.ts],
    [shared/schema.ts] and of the form schema of the asset modal.

    What the repository's code calls in its libraries is modelled as follows.
    - A JavaScript value is a [JsVal]; [truthy], [js_or], [String_] and
      [Number_toString] follow ECMA-262 (ToBoolean, the [||] operator,
      ToString).
    - A row produced by [XLSX.utils.sheet_to_json] is a JavaScript object
      keyed by the header text: a [gmap string JsVal].
    - [createInsertSchema(assets)] (drizzle-zod) turns every [text],
      [decimal] and [date] column into [z.string()]; a nullable column is
      optional and nullable.
    - The table lives in PostgreSQL.  What the table declaration says is
      modelled: the [serial] primary key, a 32-bit integer drawn from a
      sequence that a refused INSERT does not move back, and the UNIQUE
      constraint of [tag].  The engine refuses a text that holds code point
      0 and an [id] outside the 32-bit range.  The input conversion of the
      [decimal(10,2)] and [date] columns belongs to the engine and is a
      parameter of the development ([Engine]).
    - The import is modelled from the rows that [sheet_to_json] returns.
      What [XLSX.write] and [XLSX.read] do to a cell is not modelled.
    - Express hands a request to the first registered route whose path
      matches ([GET]).
    - Strings are sequences of the first 256 code points. *)

From Stdlib Require Import String Ascii ZArith List Bool Lia DecimalString
  DecimalNat.
From stdpp Require Import base option list gmap strings sorting.

Local Open Scope string_scope.
Local Open Scope list_scope.
Local Open Scope Z_scope.

(** ** JavaScript values *)

(** A Number, by the decimal digits that [Number::toString] prints:
    [Dec neg s n] is the number of sign [neg] whose shortest digit string is
    that of [s] and whose decimal point stands after [n] of these digits
    (ECMA-262, Number::toString, the integers s, k and n). *)
Inductive JsNum :=
| NaN
| Infinity (neg : bool)
| Zero (neg : bool)
| Dec (neg : bool) (s : positive) (n : Z).

Inductive JsVal :=
| JUndefined
| JNull
| JBool (b : bool)
| JNumber (x : JsNum)
| JString (s : string).

Definition digits_of_N (n : N) : string :=
  NilZero.string_of_uint (N.to_uint n).

Definition digits_of_nat (n : nat) : string :=
  NilZero.string_of_uint (Nat.to_uint n).

Fixpoint zeros (n : nat) : string :=
  match n with
  | O => ""
  | S n' => String "0" (zeros n')
  end.

Definition str_take (n : nat) (s : string) : string := substring 0 n s.
Definition str_drop (n : nat) (s : string) : string :=
  substring n (String.length s - n) s.

(** Number::toString with radix 10. *)
Definition Number_toString (x : JsNum) : string :=
  match x with
  | NaN => "NaN"
  | Infinity neg => if neg then "-Infinity" else "Infinity"
  | Zero _ => "0"
  | Dec neg s n =>
      let ds := digits_of_N (Npos s) in
      let k := Z.of_nat (String.length ds) in
      let body :=
        if (k <=? n) && (n <=? 21) then
          ds +:+ zeros (Z.to_nat (n - k))
        else if (0 <? n) && (n <=? 21) then
          str_take (Z.to_nat n) ds +:+ "." +:+ str_drop (Z.to_nat n) ds
        else if (-6 <? n) && (n <=? 0) then
          "0." +:+ zeros (Z.to_nat (- n)) +:+ ds
        else
          let e := n - 1 in
          let sign := if e <? 0 then "-" else "+" in
          let es := digits_of_N (Z.abs_N e) in
          if k =? 1 then ds +:+ "e" +:+ sign +:+ es
          else str_take 1 ds +:+ "." +:+ str_drop 1 ds +:+ "e" +:+ sign +:+ es
      in
      if neg then "-" +:+ body else body
  end.

(** ToBoolean. *)
Definition truthy (v : JsVal) : bool :=
  match v with
  | JUndefined | JNull => false
  | JBool b => b
  | JNumber NaN | JNumber (Zero _) => false
  | JNumber _ => true
  | JString s => negb (String.eqb s "")
  end.

(** [a || b]. *)
Definition js_or (a b : JsVal) : JsVal := if truthy a then a else b.

(** [String(v)], also what a template literal does to [v]. *)
Definition String_ (v : JsVal) : string :=
  match v with
  | JUndefined => "undefined"
  | JNull => "null"
  | JBool b => if b then "true" else "false"
  | JNumber x => Number_toString x
  | JString s => s
  end.

(** [v === undefined]. *)
Definition is_undefined (v : JsVal) : bool :=
  match v with JUndefined => true | _ => false end.

(** An object used as a record: sheet rows and request bodies.  Reading a
    key the object does not have gives [undefined]. *)
Definition prop (o : gmap string JsVal) (k : string) : JsVal :=
  default JUndefined (o !! k).

(** [String.prototype.toLowerCase] on the first 256 code points: A-Z and
    the capital letters U+00C0-U+00DE (without the sign U+00D7) move up
    by 32. *)
Definition lower_char (c : ascii) : ascii :=
  let n := nat_of_ascii c in
  if ((65 <=? n)%nat && (n <=? 90)%nat) ||
     ((192 <=? n)%nat && (n <=? 222)%nat && negb (n =? 215)%nat)
  then ascii_of_nat (n + 32) else c.

Fixpoint toLowerCase (s : string) : string :=
  match s with
  | EmptyString => EmptyString
  | String c s' => String (lower_char c) (toLowerCase s')
  end.

(** ** The records of [shared/schema.ts] *)

(** [Asset = typeof assets.$inferSelect].  A nullable column is an
    [option]: [None] is SQL NULL (JavaScript [null]). *)
Module Asset.
Record t := mk {
  id : Z;
  name : string;
  type : string;
  tag : string;
  serialNumber : option string;
  cost : string;
  acquisitionDate : option string
}.
End Asset.

(** [InsertAsset = z.infer<typeof insertAssetSchema>].  The two nullable
    columns are optional and nullable: [None] is a key left out (or
    [undefined]), [Some None] is [null], [Some (Some s)] a string. *)
Module InsertAsset.
Record t := mk {
  name : string;
  type : string;
  tag : string;
  serialNumber : option (option string);
  cost : string;
  acquisitionDate : option (option string)
}.
End InsertAsset.

(** [Partial<InsertAsset>], the output of [insertAssetSchema.partial()]. *)
Module PartialAsset.
Record t := mk {
  name : option string;
  type : option string;
  tag : option string;
  serialNumber : option (option string);
  cost : option string;
  acquisitionDate : option (option string)
}.
End PartialAsset.

(** ** The validation schemas (zod) *)

(** One entry of [ZodError.errors]: the field and the message. *)
Record Issue := { path : string; message : string }.

(** zod's name for the type of the value it received. *)
Definition received (v : JsVal) : string :=
  match v with
  | JUndefined => "undefined"
  | JNull => "null"
  | JBool _ => "boolean"
  | JNumber NaN => "nan"
  | JNumber _ => "number"
  | JString _ => "string"
  end.

Definition invalid_type (k : string) (v : JsVal) : Issue :=
  {| path := k;
     message := if is_undefined v then "Required"
                else "Expected string, received " +:+ received v |}.

(** [z.string()] at key [k]: [inl] carries the issues of a failed parse. *)
Definition z_string (k : string) (v : JsVal) : list Issue + string :=
  match v with
  | JString s => inr s
  | _ => inl [invalid_type k v]
  end.

(** [z.string().optional()]. *)
Definition z_string_optional (k : string) (v : JsVal)
  : list Issue + option string :=
  match v with
  | JUndefined => inr None
  | JString s => inr (Some s)
  | _ => inl [invalid_type k v]
  end.

(** [z.string().nullable().optional()], the schema of a nullable column. *)
Definition z_string_nullish (k : string) (v : JsVal)
  : list Issue + option (option string) :=
  match v with
  | JUndefined => inr None
  | JNull => inr (Some None)
  | JString s => inr (Some (Some s))
  | _ => inl [invalid_type k v]
  end.

Definition issues_of {A} (r : list Issue + A) : list Issue :=
  match r with inl e => e | inr _ => [] end.

(** [insertAssetSchema = createInsertSchema(assets).omit({ id: true })];
    [parse] reports the issues of all keys, in the order of the columns. *)
Definition insertAssetSchema (o : gmap string JsVal)
  : list Issue + InsertAsset.t :=
  let name := z_string "name" (prop o "name") in
  let type := z_string "type" (prop o "type") in
  let tag := z_string "tag" (prop o "tag") in
  let serialNumber := z_string_nullish "serialNumber" (prop o "serialNumber") in
  let cost := z_string "cost" (prop o "cost") in
  let acquisitionDate :=
    z_string_nullish "acquisitionDate" (prop o "acquisitionDate") in
  match name, type, tag, serialNumber, cost, acquisitionDate with
  | inr n, inr ty, inr tg, inr sn, inr c, inr d =>
      inr (InsertAsset.mk n ty tg sn c d)
  | _, _, _, _, _, _ =>
      inl (issues_of name ++ issues_of type ++ issues_of tag ++
           issues_of serialNumber ++ issues_of cost ++
           issues_of acquisitionDate)
  end.

(** [insertAssetSchema.partial()]: every key optional. *)
Definition z_optional {A} (f : string -> JsVal -> list Issue + A)
    (k : string) (v : JsVal) : list Issue + option A :=
  match v with
  | JUndefined => inr None
  | _ => match f k v with inl e => inl e | inr a => inr (Some a) end
  end.

Definition insertAssetSchema_partial (o : gmap string JsVal)
  : list Issue + PartialAsset.t :=
  let name := z_optional z_string "name" (prop o "name") in
  let type := z_optional z_string "type" (prop o "type") in
  let tag := z_optional z_string "tag" (prop o "tag") in
  let serialNumber :=
    z_string_nullish "serialNumber" (prop o "serialNumber") in
  let cost := z_optional z_string "cost" (prop o "cost") in
  let acquisitionDate :=
    z_string_nullish "acquisitionDate" (prop o "acquisitionDate") in
  match name, type, tag, serialNumber, cost, acquisitionDate with
  | inr n, inr ty, inr tg, inr sn, inr c, inr d =>
      inr (PartialAsset.mk n ty tg sn c d)
  | _, _, _, _, _, _ =>
      inl (issues_of name ++ issues_of type ++ issues_of tag ++
           issues_of serialNumber ++ issues_of cost ++
           issues_of acquisitionDate)
  end.

(** *** [parseFloat] and the cost rule of the form *)

(** The value [parseFloat] reads from a string, before it is rounded to a
    Number: [PF_Decimal neg m e] is m × 10^e with sign [neg]. *)
Inductive ParsedFloat :=
| PF_NaN
| PF_Infinity (neg : bool)
| PF_Decimal (neg : bool) (m : N) (e : Z).

Definition is_digit (c : ascii) : bool :=
  let n := nat_of_ascii c in (48 <=? n)%nat && (n <=? 57)%nat.

(** WhiteSpace and LineTerminator, among the first 256 code points. *)
Definition is_space (c : ascii) : bool :=
  let n := nat_of_ascii c in
  ((9 <=? n)%nat && (n <=? 13)%nat) || (n =? 32)%nat || (n =? 160)%nat.

Fixpoint trim_start (s : string) : string :=
  match s with
  | String c s' => if is_space c then trim_start s' else s
  | EmptyString => s
  end.

Fixpoint span_digits (s : string) : list ascii * string :=
  match s with
  | String c s' =>
      if is_digit c then
        let '(ds, r) := span_digits s' in (c :: ds, r)
      else ([], s)
  | EmptyString => ([], s)
  end.

Definition digit_value (c : ascii) : N := N.of_nat (nat_of_ascii c - 48).

Definition N_of_digits (ds : list ascii) : N :=
  fold_left (fun acc c => (10 * acc + digit_value c)%N) ds 0%N.

Definition strip_sign (s : string) : bool * string :=
  match s with
  | String "-" r => (true, r)
  | String "+" r => (false, r)
  | _ => (false, s)
  end.

(** The ExponentPart that follows the digits, if there is one. *)
Definition exponent_part (s : string) : Z :=
  match s with
  | String c r =>
      if Ascii.eqb c "e" || Ascii.eqb c "E" then
        let '(neg, r') := strip_sign r in
        let '(ds, _) := span_digits r' in
        match ds with
        | [] => 0
        | _ => if neg then - Z.of_N (N_of_digits ds) else Z.of_N (N_of_digits ds)
        end
      else 0
  | EmptyString => 0
  end.

(** [parseFloat(s)]: leading white space is dropped and the longest prefix
    that is a StrDecimalLiteral is read; without one the result is NaN. *)
Definition parseFloat (s : string) : ParsedFloat :=
  let '(neg, u) := strip_sign (trim_start s) in
  if String.prefix "Infinity" u then PF_Infinity neg
  else
    let '(ip, r1) := span_digits u in
    let '(fp, r2) :=
      match r1 with
      | String "." r => span_digits r
      | _ => ([], r1)
      end in
    match ip ++ fp with
    | [] => PF_NaN
    | ds => PF_Decimal neg (N_of_digits ds)
              (exponent_part r2 - Z.of_nat (length fp))
    end.

Definition isNaN (x : ParsedFloat) : bool :=
  match x with PF_NaN => true | _ => false end.

(** m × 10^e is rounded to zero: it is at most 2^-1075, half of the least
    positive Number. *)
Definition rounds_to_zero (m : N) (e : Z) : bool :=
  (m =? 0)%N ||
  ((e <? 0) && (Z.of_N m * 2 ^ 1075 <=? 10 ^ (- e))).

(** [x >= 0] for the Number that [x] is rounded to. *)
Definition ge_zero (x : ParsedFloat) : bool :=
  match x with
  | PF_NaN => false
  | PF_Infinity neg => negb neg
  | PF_Decimal neg m e => negb neg || rounds_to_zero m e
  end.

(** The refinement of [cost] in [formSchema]. *)
Definition cost_refine (val : string) : bool :=
  negb (isNaN (parseFloat val)) && ge_zero (parseFloat val).

Module FormData.
Record t := mk {
  name : string;
  type : string;
  tag : string;
  serialNumber : option (option string);
  cost : string;
  acquisitionDate : option string
}.
End FormData.

(** [z.string().refine(..., { message })] at key [cost]. *)
Definition z_cost (k : string) (v : JsVal) : list Issue + string :=
  match z_string k v with
  | inl e => inl e
  | inr s =>
      if cost_refine s then inr s
      else inl [ {| path := k;
                    message := "Cost must be a valid positive number" |} ]
  end.

(** [formSchema = insertAssetSchema.extend({ cost, acquisitionDate })]. *)
Definition formSchema (o : gmap string JsVal) : list Issue + FormData.t :=
  let name := z_string "name" (prop o "name") in
  let type := z_string "type" (prop o "type") in
  let tag := z_string "tag" (prop o "tag") in
  let serialNumber := z_string_nullish "serialNumber" (prop o "serialNumber") in
  let cost := z_cost "cost" (prop o "cost") in
  let acquisitionDate :=
    z_string_optional "acquisitionDate" (prop o "acquisitionDate") in
  match name, type, tag, serialNumber, cost, acquisitionDate with
  | inr n, inr ty, inr tg, inr sn, inr c, inr d =>
      inr (FormData.mk n ty tg sn c d)
  | _, _, _, _, _, _ =>
      inl (issues_of name ++ issues_of type ++ issues_of tag ++
           issues_of serialNumber ++ issues_of cost ++
           issues_of acquisitionDate)
  end.

(** ** The table [assets] and the storage class *)

(** The persisted state: the rows of the table in the order in which a
    SELECT without ORDER BY returns them, and the next value of the sequence
    behind the [serial] column [id]. *)
Record Store := { rows : list Asset.t; next_id : Z }.

(** The outcome of an awaited storage call: a value, or a rejection (the
    engine refused the statement), with the state the refused call
    leaves. *)
Inductive Result (A : Type) :=
| Ok (a : A)
| Throw (s : Store).
Arguments Ok {A} a.
Arguments Throw {A} s.

Definition tag_is (t : string) (a : Asset.t) : bool :=
  String.eqb (Asset.tag a) t.
Definition id_is (i : Z) (a : Asset.t) : bool := Asset.id a =? i.

(** [asset.serialNumber || ""] and the like, on a nullable column. *)
Definition of_nullable (o : option string) : JsVal :=
  match o with Some s => JString s | None => JNull end.

(** The column [id] is a 32-bit integer. *)
Definition int4 (i : Z) : bool := (-2147483648 <=? i) && (i <=? 2147483647).

(** The engine takes no text that holds code point 0. *)
Fixpoint text_ok (s : string) : bool :=
  match s with
  | EmptyString => true
  | String c s' => negb (Ascii.eqb c Ascii.zero) && text_ok s'
  end.

(** The engine's input conversion of the [decimal(10,2)] column and of the
    [date] column: the text that is stored, or [None] when the engine
    refuses the text.  The conversion runs on the parameters of a
    statement, before the statement draws from the sequence or touches a
    row. *)
Class Engine := {
  numeric_in : string -> option string;
  date_in : string -> option string
}.

Section Storage.

Context {engine : Engine}.

(** A value as its column stores it, or [None] when the engine refuses
    it. *)
Definition text_column (s : string) : option string :=
  if text_ok s then Some s else None.
Definition numeric_column (s : string) : option string :=
  if text_ok s then numeric_in s else None.
Definition date_column (s : string) : option string :=
  if text_ok s then date_in s else None.

(** A key of a nullable column: left out, null, or a value. *)
Definition nullable (column : string -> option string)
    (o : option (option string)) : option (option (option string)) :=
  match o with
  | Some (Some s) => s' ← column s; Some (Some (Some s'))
  | other => Some other
  end.

(** The values of one row of an INSERT as the engine binds them. *)
Definition bind_insert (v : InsertAsset.t) : option InsertAsset.t :=
  n ← text_column (InsertAsset.name v);
  ty ← text_column (InsertAsset.type v);
  tg ← text_column (InsertAsset.tag v);
  sn ← nullable text_column (InsertAsset.serialNumber v);
  c ← numeric_column (InsertAsset.cost v);
  d ← nullable date_column (InsertAsset.acquisitionDate v);
  Some (InsertAsset.mk n ty tg sn c d).

(** The row that is written: [id] from the sequence; a key left out takes
    the column's default, NULL. *)
Definition new_row (i : Z) (v : InsertAsset.t) : Asset.t :=
  Asset.mk i (InsertAsset.name v) (InsertAsset.type v) (InsertAsset.tag v)
    (mjoin (InsertAsset.serialNumber v)) (InsertAsset.cost v)
    (mjoin (InsertAsset.acquisitionDate v)).

(** Rows are added one after the other, each with the next value of the
    sequence.  The statement is refused when the sequence has left the
    range of [id], and at a row whose [id] or whose [tag] is already in
    the table (primary key, UNIQUE constraint).  A refused statement adds
    no row, but the values it drew from the sequence are spent: [inl] is
    the value at which the sequence then stands. *)
Fixpoint insert_rows (table : list Asset.t) (seq : Z)
    (vals : list InsertAsset.t) (created : list Asset.t)
  : Z + (Store * list Asset.t) :=
  match vals with
  | [] => inr ({| rows := table; next_id := seq |}, created)
  | v :: vals' =>
      let a := new_row seq v in
      if negb (int4 seq) then inl seq
      else if existsb (id_is seq) table || existsb (tag_is (Asset.tag a)) table
      then inl (seq + 1)
      else insert_rows (table ++ [a]) (seq + 1) vals' (created ++ [a])
  end.

(** [db.insert(assets).values(vals).returning()]: one statement, which
    either adds every row or, when the engine refuses it, none. *)
Definition db_insert (s : Store) (vals : list InsertAsset.t)
  : Result (Store * list Asset.t) :=
  match mapM bind_insert vals with
  | None => Throw s
  | Some vals' =>
      match insert_rows (rows s) (next_id s) vals' [] with
      | inl seq => Throw {| rows := rows s; next_id := seq |}
      | inr r => Ok r
      end
  end.

(** The SET clause as the engine binds it.  Keys that are [undefined] are
    dropped; with no key left there is nothing to set and the statement is
    refused. *)
Definition no_values (p : PartialAsset.t) : bool :=
  match PartialAsset.name p, PartialAsset.type p, PartialAsset.tag p,
        PartialAsset.serialNumber p, PartialAsset.cost p,
        PartialAsset.acquisitionDate p with
  | None, None, None, None, None, None => true
  | _, _, _, _, _, _ => false
  end.

(** A key of a column that is not nullable: left out, or a value. *)
Definition optional (column : string -> option string) (o : option string)
  : option (option string) :=
  match o with
  | Some s => s' ← column s; Some (Some s')
  | None => Some None
  end.

Definition bind_update (p : PartialAsset.t) : option PartialAsset.t :=
  if no_values p then None
  else
    n ← optional text_column (PartialAsset.name p);
    ty ← optional text_column (PartialAsset.type p);
    tg ← optional text_column (PartialAsset.tag p);
    sn ← nullable text_column (PartialAsset.serialNumber p);
    c ← optional numeric_column (PartialAsset.cost p);
    d ← nullable date_column (PartialAsset.acquisitionDate p);
    Some (PartialAsset.mk n ty tg sn c d).

(** The row after [SET]: every key of the patch overwrites its column. *)
Definition merge (a : Asset.t) (p : PartialAsset.t) : Asset.t :=
  Asset.mk (Asset.id a)
    (default (Asset.name a) (PartialAsset.name p))
    (default (Asset.type a) (PartialAsset.type p))
    (default (Asset.tag a) (PartialAsset.tag p))
    (default (Asset.serialNumber a) (PartialAsset.serialNumber p))
    (default (Asset.cost a) (PartialAsset.cost p))
    (default (Asset.acquisitionDate a) (PartialAsset.acquisitionDate p)).

(** The table after [UPDATE ... SET p WHERE id = i].  The engine writes the
    new version of a row behind the rows of the table, so a SELECT without
    ORDER BY returns the updated row last. *)
Definition set_where (i : Z) (p : PartialAsset.t) (table : list Asset.t)
  : list Asset.t :=
  filter (fun a => negb (id_is i a)) table ++
  ((fun a => merge a p) <$> filter (fun a => id_is i a) table).

(** A written row whose new [tag] is also the tag of another row violates
    the UNIQUE constraint. *)
Definition update_violates (i : Z) (p : PartialAsset.t)
    (table : list Asset.t) : bool :=
  match PartialAsset.tag p with
  | Some t =>
      existsb (id_is i) table &&
      (2 <=? length (filter (fun a => tag_is t a) (set_where i p table)))%nat
  | None => false
  end.

(** A parameter of a WHERE clause that lies outside the domain of its
    column: an [id] that is no 32-bit integer, a text with code point 0.
    The engine refuses the statement.  No stored value lies outside the
    domain of its column, so such a parameter is one that matches no
    row. *)
Definition refused (in_domain : bool) (matching : list Asset.t) : bool :=
  match matching with
  | [] => negb in_domain
  | _ :: _ => false
  end.

(** [db.update(assets).set(p).where(eq(assets.id, i)).returning()]. *)
Definition db_update (s : Store) (i : Z) (p : PartialAsset.t)
  : Result (Store * list Asset.t) :=
  match bind_update p with
  | None => Throw s
  | Some p' =>
      let matching := filter (fun a => id_is i a) (rows s) in
      if refused (int4 i) matching || update_violates i p' (rows s)
      then Throw s
      else
        Ok ({| rows := set_where i p' (rows s); next_id := next_id s |},
            (fun a => merge a p') <$> matching)
  end.

(** [db.delete(assets).where(eq(assets.id, i)).returning()]. *)
Definition db_delete (s : Store) (i : Z) : Result (Store * list Asset.t) :=
  let matching := filter (fun a => id_is i a) (rows s) in
  if refused (int4 i) matching then Throw s
  else
    Ok ({| rows := filter (fun a => negb (id_is i a)) (rows s);
           next_id := next_id s |},
        matching).

(** *** [DatabaseStorage] *)

Definition getAllAssets (s : Store) : list Asset.t := rows s.

Definition getAsset (s : Store) (i : Z) : Result (option Asset.t) :=
  let matching := filter (fun a => id_is i a) (rows s) in
  if refused (int4 i) matching then Throw s else Ok (head matching).

Definition getAssetByTag (s : Store) (t : string) : Result (option Asset.t) :=
  let matching := filter (fun a => tag_is t a) (rows s) in
  if refused (text_ok t) matching then Throw s else Ok (head matching).

Definition createAsset (s : Store) (insertAsset : InsertAsset.t)
  : Result (Store * option Asset.t) :=
  match db_insert s [insertAsset] with
  | Throw s' => Throw s'
  | Ok (s', returned) => Ok (s', head returned)
  end.

Definition updateAsset (s : Store) (i : Z) (updateData : PartialAsset.t)
  : Result (Store * option Asset.t) :=
  match db_update s i updateData with
  | Throw s' => Throw s'
  | Ok (s', returned) => Ok (s', head returned)
  end.

Definition deleteAsset (s : Store) (i : Z) : Result (Store * bool) :=
  match db_delete s i with
  | Throw s' => Throw s'
  | Ok (s', result) => Ok (s', (0 <? length result)%nat)
  end.

Definition createManyAssets (s : Store) (insertAssets : list InsertAsset.t)
  : Result (Store * list Asset.t) :=
  if (length insertAssets =? 0)%nat then Ok (s, [])
  else db_insert s insertAssets.

(** ** The routes of [registerRoutes] *)

(** What a route sends: [{ message }], an asset, the list of assets,
    [{ message: "Validation error", errors }],
    [{ message: "No valid assets found in file", errors }],
    [{ message, imported, errors, assets }], or the sheet of the exported
    workbook. *)
Inductive Body :=
| Message (message : string)
| AssetJson (asset : option Asset.t)
| AssetsJson (assets : list Asset.t)
| ValidationError (errors : list Issue)
| NoValidAssets (errors : list string)
| ImportSummary (message : string) (imported : nat)
    (errors : option (list string)) (assets : list Asset.t)
| Workbook (sheet : list (gmap string JsVal)).

Record Response := { status : Z; body : Body }.

Definition json (code : Z) (b : Body) : Response :=
  {| status := code; body := b |}.

(** [GET /api/assets] and [GET /api/assets/:id].  The parameter [id] is
    the result of [parseInt(req.params.id)]; [None] is NaN. *)
Definition get_assets (s : Store) : Response :=
  json 200 (AssetsJson (getAllAssets s)).

Definition get_asset (s : Store) (id : option Z) : Response :=
  match id with
  | None => json 400 (Message "Invalid asset ID")
  | Some i =>
      match getAsset s i with
      | Throw _ => json 500 (Message "Failed to fetch asset")
      | Ok None => json 404 (Message "Asset not found")
      | Ok (Some a) => json 200 (AssetJson (Some a))
      end
  end.

(** [POST /api/assets]. *)
Definition post_asset (s : Store) (req_body : gmap string JsVal)
  : Store * Response :=
  match insertAssetSchema req_body with
  | inl errors => (s, json 400 (ValidationError errors))
  | inr validatedData =>
      match getAssetByTag s (InsertAsset.tag validatedData) with
      | Throw s' => (s', json 500 (Message "Failed to create asset"))
      | Ok (Some _) => (s, json 409 (Message "Asset tag already exists"))
      | Ok None =>
          match createAsset s validatedData with
          | Throw s' => (s', json 500 (Message "Failed to create asset"))
          | Ok (s', asset) => (s', json 201 (AssetJson asset))
          end
      end
  end.

(** The guard [if (validatedData.tag)] of the update route: the tag is
    there and is not the empty string. *)
Definition tag_given (p : PartialAsset.t) : option string :=
  match PartialAsset.tag p with
  | Some t => if String.eqb t "" then None else Some t
  | None => None
  end.

(** [PUT /api/assets/:id]. *)
Definition put_asset (s : Store) (id : option Z)
    (req_body : gmap string JsVal) : Store * Response :=
  match id with
  | None => (s, json 400 (Message "Invalid asset ID"))
  | Some i =>
      match insertAssetSchema_partial req_body with
      | inl errors => (s, json 400 (ValidationError errors))
      | inr validatedData =>
          let existingAsset :=
            match tag_given validatedData with
            | Some t => getAssetByTag s t
            | None => Ok None
            end in
          match existingAsset with
          | Throw s' => (s', json 500 (Message "Failed to update asset"))
          | Ok existingAsset =>
              if match existingAsset with
                 | Some existingAsset => negb (Asset.id existingAsset =? i)
                 | None => false
                 end
              then (s, json 409 (Message "Asset tag already exists"))
              else
                match updateAsset s i validatedData with
                | Throw s' => (s', json 500 (Message "Failed to update asset"))
                | Ok (s', None) => (s', json 404 (Message "Asset not found"))
                | Ok (s', Some asset) =>
                    (s', json 200 (AssetJson (Some asset)))
                end
          end
      end
  end.

(** [DELETE /api/assets/:id]. *)
Definition delete_asset (s : Store) (id : option Z) : Store * Response :=
  match id with
  | None => (s, json 400 (Message "Invalid asset ID"))
  | Some i =>
      match deleteAsset s i with
      | Throw s' => (s', json 500 (Message "Failed to delete asset"))
      | Ok (s', deleted) =>
          if deleted then (s', json 200 (Message "Asset deleted successfully"))
          else (s', json 404 (Message "Asset not found"))
      end
  end.

(** *** Import *)

(** The columns of a row, each through its chain of [||]. *)
Definition row_name (row : gmap string JsVal) : JsVal :=
  js_or (js_or (js_or (prop row "Asset Name") (prop row "Name"))
               (prop row "asset_name")) (prop row "name").
Definition row_type (row : gmap string JsVal) : JsVal :=
  js_or (js_or (js_or (prop row "Asset Type") (prop row "Type"))
               (prop row "asset_type")) (prop row "type").
Definition row_tag (row : gmap string JsVal) : JsVal :=
  js_or (js_or (js_or (prop row "Asset Tag") (prop row "Tag"))
               (prop row "asset_tag")) (prop row "tag").
Definition row_cost (row : gmap string JsVal) : JsVal :=
  js_or (js_or (js_or (prop row "Cost") (prop row "cost"))
               (prop row "Price")) (prop row "price").
Definition row_serialNumber (row : gmap string JsVal) : JsVal :=
  js_or (js_or (js_or (prop row "Serial Number") (prop row "SerialNumber"))
               (prop row "serial_number")) (prop row "serial").
Definition row_acquisitionDate (row : gmap string JsVal) : JsVal :=
  js_or (js_or (js_or (prop row "Acquisition Date")
                      (prop row "AcquisitionDate"))
               (prop row "acquisition_date")) (prop row "date").

Definition missing_fields (rowNumber : nat) : string :=
  "Row " +:+ digits_of_nat rowNumber +:+
  ": Missing required fields (Name, Type, Tag, Cost)".

Definition tag_exists (rowNumber : nat) (tag : JsVal) : string :=
  "Row " +:+ digits_of_nat rowNumber +:+
  ": Asset tag '" +:+ String_ tag +:+ "' already exists".

Definition invalid_data (rowNumber : nat) : string :=
  "Row " +:+ digits_of_nat rowNumber +:+ ": Invalid data format".

(** [error.errors.map(e => e.message).join(", ")]. *)
Fixpoint join (sep : string) (l : list string) : string :=
  match l with
  | [] => ""
  | [x] => x
  | x :: l' => x +:+ sep +:+ join sep l'
  end.

Definition zod_failed (rowNumber : nat) (errors : list Issue) : string :=
  "Row " +:+ digits_of_nat rowNumber +:+ ": " +:+
  join ", " (map message errors).

(** [x ? String(x) : undefined]. *)
Definition string_or_undefined (v : JsVal) : JsVal :=
  if truthy v then JString (String_ v) else JUndefined.

Definition assetData (row : gmap string JsVal) : gmap string JsVal :=
  {[ "name" := JString (String_ (row_name row));
     "type" := JString (String_ (row_type row));
     "tag" := JString (String_ (row_tag row));
     "cost" := JString (String_ (row_cost row));
     "serialNumber" := string_or_undefined (row_serialNumber row);
     "acquisitionDate" := string_or_undefined (row_acquisitionDate row) ]}.

(** The body of the loop for one row: the error pushed to [errors], or the
    asset pushed to [assetsToCreate].  Two calls of the [try] block can
    throw: [parse], with a ZodError, and the awaited [getAssetByTag], whose
    rejection the [catch] answers with "Invalid data format". *)
Definition import_row (s : Store) (rowNumber : nat)
    (row : gmap string JsVal) : string + InsertAsset.t :=
  if negb (truthy (row_name row)) || negb (truthy (row_type row)) ||
     negb (truthy (row_tag row)) || is_undefined (row_cost row)
  then inl (missing_fields rowNumber)
  else
    match getAssetByTag s (String_ (row_tag row)) with
    | Throw _ => inl (invalid_data rowNumber)
    | Ok (Some _) => inl (tag_exists rowNumber (row_tag row))
    | Ok None =>
        match insertAssetSchema (assetData row) with
        | inr validatedAsset => inr validatedAsset
        | inl errors => inl (zod_failed rowNumber errors)
        end
    end.

(** [for (let i = 0; i < data.length; i++)], from row [i] on. *)
Fixpoint import_loop (s : Store) (i : nat) (data : list (gmap string JsVal))
    (assetsToCreate : list InsertAsset.t) (errors : list string)
  : list InsertAsset.t * list string :=
  match data with
  | [] => (assetsToCreate, errors)
  | row :: data' =>
      let rowNumber := (i + 2)%nat in
      match import_row s rowNumber row with
      | inl e => import_loop s (S i) data' assetsToCreate (errors ++ [e])
      | inr a => import_loop s (S i) data' (assetsToCreate ++ [a]) errors
      end
  end.

(** [POST /api/assets/import].  [file] is the first sheet of the uploaded
    workbook as [sheet_to_json] gives it; [None] when no file came. *)
Definition import_assets (s : Store)
    (file : option (list (gmap string JsVal))) : Store * Response :=
  match file with
  | None => (s, json 400 (Message "No file uploaded"))
  | Some data =>
      if (length data =? 0)%nat then
        (s, json 400 (Message "Excel file is empty"))
      else
        let '(assetsToCreate, errors) := import_loop s 0 data [] [] in
        if (0 <? length errors)%nat && (length assetsToCreate =? 0)%nat then
          (s, json 400 (NoValidAssets errors))
        else
          match createManyAssets s assetsToCreate with
          | Throw s' =>
              (s', json 500 (Message "Failed to import assets from Excel file"))
          | Ok (s', createdAssets) =>
              (s', json 200
                 (ImportSummary
                    ("Successfully imported " +:+
                     digits_of_nat (length createdAssets) +:+ " assets")
                    (length createdAssets)
                    (if (0 <? length errors)%nat then Some errors else None)
                    createdAssets))
          end
  end.

(** *** Export *)

(** One object handed to [json_to_sheet]. *)
Definition export_row (asset : Asset.t) : gmap string JsVal :=
  {[ "Asset Name" := JString (Asset.name asset);
     "Asset Type" := JString (Asset.type asset);
     "Asset Tag" := JString (Asset.tag asset);
     "Serial Number" :=
       js_or (of_nullable (Asset.serialNumber asset)) (JString "");
     "Cost" := JString (Asset.cost asset);
     "Acquisition Date" :=
       js_or (of_nullable (Asset.acquisitionDate asset)) (JString "") ]}.

(** The handler registered for [GET /api/assets/export]: the objects
    handed to [json_to_sheet] for the sheet "Assets" of the workbook
    sent. *)
Definition export_assets (s : Store) : Response :=
  json 200 (Workbook (export_row <$> getAllAssets s)).

(** *** The GET routes in the order of their registration *)

(** [parseInt(string)]: leading white space, a sign, the prefix 0x or 0X
    for radix 16, then the longest run of digits; [None] is NaN, the result
    when there is no digit.  The Number is exact up to 2^53 and rounded
    beyond, where every value is outside the range of [id]. *)
Definition radix_digit (radix : Z) (c : ascii) : option Z :=
  let n := Z.of_nat (nat_of_ascii c) in
  let d := if (48 <=? n) && (n <=? 57) then Some (n - 48)
           else if (97 <=? n) && (n <=? 122) then Some (n - 87)
           else if (65 <=? n) && (n <=? 90) then Some (n - 55)
           else None in
  match d with
  | Some v => if v <? radix then Some v else None
  | None => None
  end.

Fixpoint parse_digits (radix : Z) (s : string) (acc : option Z) : option Z :=
  match s with
  | String c s' =>
      match radix_digit radix c with
      | Some d => parse_digits radix s' (Some (default 0 acc * radix + d))
      | None => acc
      end
  | EmptyString => acc
  end.

Definition parseInt (s : string) : option Z :=
  let '(neg, u) := strip_sign (trim_start s) in
  let '(radix, digits) :=
    match u with
    | String "0" (String "x" r) | String "0" (String "X" r) => (16, r)
    | _ => (10, u)
    end in
  (fun n => if neg then - n else n) <$> parse_digits radix digits None.

(** A request path below [/api/assets]: the collection itself, or what
    follows one more slash ([/api/assets/7], [/api/assets/export]; nothing
    follows it in [/api/assets/]). *)
Inductive Path :=
| Collection
| Segment (name : string).

(** The path of a route: [/api/assets], [/api/assets/:id], or
    [/api/assets/] followed by a fixed word. *)
Inductive Pattern :=
| AtCollection
| Param
| Literal (word : string).

(** Express takes a path with a slash at its end for the path without
    it, wants a parameter not to be empty, and compares fixed words
    without regard to the case of their letters. *)
Definition matches (pattern : Pattern) (path : Path) : bool :=
  match pattern, path with
  | AtCollection, Collection => true
  | AtCollection, Segment name => String.eqb name ""
  | Param, Segment name => negb (String.eqb name "")
  | Literal word, Segment name =>
      String.eqb (toLowerCase word) (toLowerCase name)
  | _, Collection => false
  end.

(** [req.params.id] for the route [/api/assets/:id]. *)
Definition params_id (path : Path) : string :=
  match path with
  | Segment name => name
  | Collection => ""
  end.

(** The three [app.get] calls of [registerRoutes], in their order. *)
Definition get_routes : list (Pattern * (Store -> Path -> Response)) :=
  [ (AtCollection, fun s _ => get_assets s);
    (Param, fun s path => get_asset s (parseInt (params_id path)));
    (Literal "export", fun s _ => export_assets s) ].

(** Express runs the first route whose path matches the request; each of
    the handlers above answers, none calls [next].  [None]: no route
    matches. *)
Definition GET (s : Store) (path : Path) : option Response :=
  match List.find (fun route => matches route.1 path) get_routes with
  | Some (_, handler) => Some (handler s path)
  | None => None
  end.

End Storage.

(** ** Notions used by the statements *)

(** No two assets share a tag. *)
Definition tags_unique (s : Store) : Prop := NoDup (Asset.tag <$> rows s).

(** The primary key holds and the sequence is ahead of every stored id, as
    it is when every id was drawn from the sequence. *)
Definition wf (s : Store) : Prop :=
  NoDup (Asset.id <$> rows s) /\
  Forall (fun a => Asset.id a < next_id s) (rows s).

(** The header aliases of each field, in the order of the [||] chains. *)
Definition name_aliases : list string :=
  ["Asset Name"; "Name"; "asset_name"; "name"].
Definition type_aliases : list string :=
  ["Asset Type"; "Type"; "asset_type"; "type"].
Definition tag_aliases : list string :=
  ["Asset Tag"; "Tag"; "asset_tag"; "tag"].
Definition cost_aliases : list string :=
  ["Cost"; "cost"; "Price"; "price"].
Definition serialNumber_aliases : list string :=
  ["Serial Number"; "SerialNumber"; "serial_number"; "serial"].
Definition acquisitionDate_aliases : list string :=
  ["Acquisition Date"; "AcquisitionDate"; "acquisition_date"; "date"].

(** The cell of the first alias whose cell is truthy; the cell of the last
    alias when none is. *)
Fixpoint first_truthy (row : gmap string JsVal) (aliases : list string)
  : JsVal :=
  match aliases with
  | [] => JUndefined
  | [k] => prop row k
  | k :: ks => if truthy (prop row k) then prop row k else first_truthy row ks
  end.

(** The cell of the first alias that the row has a cell for, whatever the
    cell holds: "the highest-priority column present wins". *)
Fixpoint first_present (row : gmap string JsVal) (aliases : list string)
  : JsVal :=
  match aliases with
  | [] => JUndefined
  | k :: ks =>
      if is_undefined (prop row k) then first_present row ks else prop row k
  end.

(** The row has no cell, or only a falsy one, under each of the aliases. *)
Definition all_falsy (row : gmap string JsVal) (aliases : list string) : Prop :=
  Forall (fun k => truthy (prop row k) = false) aliases.

(** The row has no column of the field at all. *)
Definition lacks (row : gmap string JsVal) (aliases : list string) : Prop :=
  Forall (fun k => row !! k = None) aliases.

(** The rule of each key in [insertAssetSchema] and in [formSchema]. *)
Definition is_string (v : JsVal) : bool :=
  match v with JString _ => true | _ => false end.
Definition is_nullish_string (v : JsVal) : bool :=
  match v with JUndefined | JNull | JString _ => true | _ => false end.
Definition is_optional_string (v : JsVal) : bool :=
  match v with JUndefined | JString _ => true | _ => false end.
Definition is_cost (v : JsVal) : bool :=
  match v with JString s => cost_refine s | _ => false end.

(** The keys of the two schemas, each with its rule. *)
Definition insert_rules : list (string * (JsVal -> bool)) :=
  [("name", is_string); ("type", is_string); ("tag", is_string);
   ("serialNumber", is_nullish_string); ("cost", is_string);
   ("acquisitionDate", is_nullish_string)].

Definition form_rules : list (string * (JsVal -> bool)) :=
  [("name", is_string); ("type", is_string); ("tag", is_string);
   ("serialNumber", is_nullish_string); ("cost", is_cost);
   ("acquisitionDate", is_optional_string)].

(** The keys whose value in the object [o] breaks their rule. *)
Fixpoint broken (rules : list (string * (JsVal -> bool)))
    (o : gmap string JsVal) : list string :=
  match rules with
  | [] => []
  | (k, ok) :: rules' =>
      if ok (prop o k) then broken rules' o else k :: broken rules' o
  end.

(** What the specification asks of an inbound asset: [name], [type] and
    [tag] non-empty strings and [cost] a string read as a number that is not
    negative. *)
Definition spec_valid (o : gmap string JsVal) : bool :=
  truthy (prop o "name") && is_string (prop o "name") &&
  truthy (prop o "type") && is_string (prop o "type") &&
  truthy (prop o "tag") && is_string (prop o "tag") &&
  is_cost (prop o "cost").

(** The rows written for the values [vals] when the sequence stands at
    [i]. *)
Fixpoint assign (i : Z) (vals : list InsertAsset.t) : list Asset.t :=
  match vals with
  | [] => []
  | v :: vals' => new_row i v :: assign (i + 1) vals'
  end.

(** The optional field of a row as the schema returns it. *)
Definition optional_text (v : JsVal) : option (option string) :=
  if truthy v then Some (Some (String_ v)) else None.

(** The nullable field of a body as the schemas return it. *)
Definition nullish_of (v : JsVal) : option (option string) :=
  match v with
  | JString x => Some (Some x)
  | JNull => Some None
  | _ => None
  end.

(** *** An engine for the examples

    It reads a cost written as digits, with or without a point and further
    digits, and stores it rounded to two decimals, without leading zeros,
    when what stands before the point has at most eight digits; it stores
    a date written yyyy-mm-dd as it is; it refuses every other text. *)

(** The number of hundredths of a number written as digits, a point and
    digits, rounded half up. *)
Definition hundredths (s : string) : N :=
  let '(ip, r) := span_digits s in
  let fraction :=
    match r with String "." f => (span_digits f).1 | _ => [] end in
  let digit (k : nat) := digit_value (nth k fraction "0"%char) in
  (N_of_digits ip * 100 + digit 0%nat * 10 + digit 1%nat +
   (if 5 <=? digit 2%nat then 1 else 0))%N.

Definition plain_numeric_in (s : string) : option string :=
  let '(ip, r) := span_digits s in
  let written :=
    match r with
    | EmptyString => true
    | String "." f => String.eqb (span_digits f).2 ""
    | _ => false
    end in
  let h := hundredths s in
  if negb (length ip =? 0)%nat && written && (h <? 10000000000)%N
  then Some (digits_of_N (h / 100) +:+ "." +:+
             digits_of_N ((h mod 100) / 10) +:+ digits_of_N (h mod 10))
  else None.

Definition plain_date_in (s : string) : option string :=
  let '(y, r1) := span_digits s in
  match r1 with
  | String "-" r2 =>
      let '(m, r3) := span_digits r2 in
      match r3 with
      | String "-" r4 =>
          let '(d, r5) := span_digits r4 in
          if (length y =? 4)%nat && (length m =? 2)%nat &&
             (length d =? 2)%nat && String.eqb r5 ""
          then Some s else None
      | _ => None
      end
  | _ => None
  end.

Definition plain_engine : Engine :=
  {| numeric_in := plain_numeric_in; date_in := plain_date_in |}.

(** ** The upload: [FileUpload] and the filter of the import route *)

(** What both sides look at in a file: its MIME type ([file.type] in the
    browser, [file.mimetype] in the route) and its size in bytes. *)
Record File := { file_type : string; file_size : N }.

(** [Array.prototype.includes] on an array of strings. *)
Definition array_includes (l : list string) (x : string) : bool :=
  existsb (String.eqb x) l.

(** The array [allowedTypes] of [handleFileSelect]. *)
Definition client_allowedTypes : list string :=
  ["application/vnd.openxmlformats-officedocument.spreadsheetml.sheet";
   "application/vnd.ms-excel"].

(** What [handleFileSelect] ends in: nothing, a destructive toast with the
    given description, or [uploadMutation.mutate(file)]. *)
Inductive Selected :=
| Ignored
| ErrorToast (description : string)
| Mutate (file : File).

Definition handleFileSelect (file : option File) : Selected :=
  match file with
  | None => Ignored
  | Some f =>
      if negb (array_includes client_allowedTypes (file_type f)) then
        ErrorToast "Invalid file type. Only .xlsx and .xls files are allowed."
      else if (10 * 1024 * 1024 <? file_size f)%N then
        ErrorToast "File too large. Maximum size is 10MB."
      else Mutate f
  end.

(** [handleDrop] and [handleFileInputChange]: the first of the files, if
    there is one. *)
Definition handleDrop (files : list File) : Selected :=
  match files with
  | [] => Ignored
  | f :: _ => handleFileSelect (Some f)
  end.

(** The options of [multer] in [routes.ts]: [limits.fileSize] and
    [fileFilter], which answers [cb(null, true)] ([None]) or an error. *)
Definition fileSize : N := 10 * 1024 * 1024.

Definition server_allowedTypes : list string :=
  ["application/vnd.openxmlformats-officedocument.spreadsheetml.sheet";
   "application/vnd.ms-excel"].

Definition fileFilter (file : File) : option string :=
  if array_includes server_allowedTypes (file_type file) then None
  else Some "Invalid file type. Only .xlsx and .xls files are allowed.".

(** [upload.single("file")] hands the file to the route when [fileFilter]
    takes it and the file ends before it has reached [limits.fileSize]
    bytes; otherwise the upload ends with an error. *)
Definition multer_takes (file : File) : bool :=
  match fileFilter file with
  | None => (file_size file <? fileSize)%N
  | Some _ => false
  end.

(** ** The page [AssetManagement]: search, type filter, type list *)

(** [s.includes(t)]: [t] occurs in [s]. *)
Fixpoint includes (s t : string) : bool :=
  String.prefix t s ||
  match s with
  | EmptyString => false
  | String _ s' => includes s' t
  end.

Definition matchesSearch (searchTerm : string) (asset : Asset.t) : bool :=
  includes (toLowerCase (Asset.name asset)) (toLowerCase searchTerm) ||
  includes (toLowerCase (Asset.tag asset)) (toLowerCase searchTerm).

Definition matchesType (filterType : string) (asset : Asset.t) : bool :=
  String.eqb filterType "all" || String.eqb (Asset.type asset) filterType.

Definition filteredAssets (searchTerm filterType : string)
    (assets : list Asset.t) : list Asset.t :=
  filter (fun asset => matchesSearch searchTerm asset &&
                       matchesType filterType asset) assets.

(** [new Set(xs)] read back with [Array.from]: the values in the order of
    their first occurrence. *)
Fixpoint set_from (seen xs : list string) : list string :=
  match xs with
  | [] => seen
  | x :: xs' =>
      if array_includes seen x then set_from seen xs'
      else set_from (seen ++ [x]) xs'
  end.

Definition assetTypes (assets : list Asset.t) : list string :=
  set_from [] (Asset.type <$> assets).

(** ** The table [DataTable]: sorting *)

Inductive SortField := by_name | by_type | by_tag | by_cost.
Inductive SortDirection := asc | desc.

(** The state [sortField], [sortDirection] and its handler. *)
Definition SortField_eqb (f g : SortField) : bool :=
  match f, g with
  | by_name, by_name | by_type, by_type | by_tag, by_tag
  | by_cost, by_cost => true
  | _, _ => false
  end.

Definition handleSort (state : SortField * SortDirection) (field : SortField)
  : SortField * SortDirection :=
  let '(sortField, sortDirection) := state in
  if SortField_eqb sortField field then
    (sortField, match sortDirection with asc => desc | desc => asc end)
  else (field, asc).

(** [Array.prototype.sort] with a comparator.  The sort is stable
    (ECMAScript 2019); for a consistent comparator every stable sort gives
    the same array, here the one of insertion from the right.  For a
    comparator that is not consistent the order is left to the
    implementation, and nothing is stated about it. *)
Fixpoint sort_insert {A} (compareFn : A -> A -> Z) (x : A) (l : list A)
  : list A :=
  match l with
  | [] => [x]
  | y :: l' =>
      if 0 <? compareFn x y then y :: sort_insert compareFn x l'
      else x :: l
  end.

Definition array_sort {A} (compareFn : A -> A -> Z) (l : list A) : list A :=
  foldr (sort_insert compareFn) [] l.

(** The string that a sort field reads from an asset. *)
Definition sort_key (field : SortField) (a : Asset.t) : string :=
  match field with
  | by_name => Asset.name a
  | by_type => Asset.type a
  | by_tag => Asset.tag a
  | by_cost => Asset.cost a
  end.

Section Sorting.

(** [parseFloat(x) < parseFloat(y)] on the two Numbers, which are floating
    point values. *)
Variable number_lt : string -> string -> bool.

(** [aValue < bValue]: strings compare by their code units. *)
Definition value_lt (field : SortField) (a b : Asset.t) : bool :=
  match field with
  | by_cost => number_lt (Asset.cost a) (Asset.cost b)
  | _ => String.ltb (sort_key field a) (sort_key field b)
  end.

(** The comparator of [sortedAssets]. *)
Definition compareAssets (sortField : SortField)
    (sortDirection : SortDirection) (a b : Asset.t) : Z :=
  if value_lt sortField a b then
    match sortDirection with asc => -1 | desc => 1 end
  else if value_lt sortField b a then
    match sortDirection with asc => 1 | desc => -1 end
  else 0.

Definition sortedAssets (sortField : SortField)
    (sortDirection : SortDirection) (assets : list Asset.t) : list Asset.t :=
  array_sort (compareAssets sortField sortDirection) assets.

End Sorting.

(** An asset may stand before another one in the sorted table. *)
Definition in_order (field : SortField) (direction : SortDirection)
    (a b : Asset.t) : Prop :=
  match direction with
  | asc => String.ltb (sort_key field b) (sort_key field a) = false
  | desc => String.ltb (sort_key field a) (sort_key field b) = false
  end.

(** The rules of the keys in [insertAssetSchema.partial()]. *)
Definition partial_rules : list (string * (JsVal -> bool)) :=
  [("name", is_optional_string); ("type", is_optional_string);
   ("tag", is_optional_string); ("serialNumber", is_nullish_string);
   ("cost", is_optional_string); ("acquisitionDate", is_nullish_string)].

(** The value of a key as the partial schema returns it. *)
Definition optional_of (v : JsVal) : option string :=
  match v with JString s => Some s | _ => None end.

(** * Properties *)

(** ** JavaScript values *)

Example Number_toString_1200 : Number_toString (Dec false 12 4) = "1200".
Proof. reflexivity. Qed.
Example Number_toString_12_5 : Number_toString (Dec false 125 2) = "12.5".
Proof. reflexivity. Qed.
Example Number_toString_small : Number_toString (Dec true 5 (-2)) = "-0.005".
Proof. reflexivity. Qed.
Example Number_toString_exp : Number_toString (Dec false 15 22) = "1.5e+21".
Proof. reflexivity. Qed.
Example Number_toString_tiny : Number_toString (Dec false 1 (-6)) = "1e-7".
Proof. reflexivity. Qed.
Example cost_refine_plain : cost_refine "1200.00" = true.
Proof. reflexivity. Qed.
Example cost_refine_prefix : cost_refine "12abc" = true.
Proof. reflexivity. Qed.
Example cost_refine_negative : cost_refine "-3" = false.
Proof. reflexivity. Qed.
Example cost_refine_empty : cost_refine "" = false.
Proof. reflexivity. Qed.
Example cost_refine_minus_zero : cost_refine " -0.0e5" = true.
Proof. reflexivity. Qed.
Example cost_refine_word : cost_refine "abc" = false.
Proof. reflexivity. Qed.

Lemma truthy_undefined_false v : is_undefined v = true -> truthy v = false.
Proof. by destruct v. Qed.

Lemma prop_None (o : gmap string JsVal) k : o !! k = None -> prop o k = JUndefined.
Proof. unfold prop. by intros ->. Qed.

Lemma js_or_falsy_l a b : truthy a = false -> js_or a b = b.
Proof. unfold js_or. by intros ->. Qed.

Lemma js_or_truthy_l a b : truthy a = true -> js_or a b = a.
Proof. unfold js_or. by intros ->. Qed.

Lemma truthy_js_or a b : truthy (js_or a b) = truthy a || truthy b.
Proof. unfold js_or. by destruct (truthy a) eqn:E; rewrite ?E. Qed.

(** A chain of four [||] is the first truthy operand, or the last one. *)
Lemma chain_first_truthy row k1 k2 k3 k4 :
  js_or (js_or (js_or (prop row k1) (prop row k2)) (prop row k3)) (prop row k4)
  = first_truthy row [k1; k2; k3; k4].
Proof.
  simpl. unfold js_or.
  destruct (truthy (prop row k1)) eqn:E1; rewrite ?E1; [done|].
  destruct (truthy (prop row k2)) eqn:E2; rewrite ?E2; [done|].
  by destruct (truthy (prop row k3)) eqn:E3; rewrite ?E3.
Qed.

Lemma first_truthy_all_falsy row ks :
  all_falsy row ks -> truthy (first_truthy row ks) = false.
Proof.
  induction 1 as [|k ks Hk Hks IH]; [done|].
  simpl. destruct ks as [|k' ks']; [done|]. by rewrite Hk.
Qed.

Lemma lacks_all_falsy row ks : lacks row ks -> all_falsy row ks.
Proof.
  unfold lacks, all_falsy. intros H. eapply Forall_impl; [exact H|].
  intros k Hk. simpl in Hk. by rewrite (prop_None _ _ Hk).
Qed.

Lemma first_truthy_lacks row ks : lacks row ks -> first_truthy row ks = JUndefined.
Proof.
  induction 1 as [|k ks Hk Hks IH]; [done|].
  simpl. rewrite (prop_None _ _ Hk). simpl. by destruct ks.
Qed.

(** ** Import: the columns of a row *)

Lemma row_columns row :
  row_name row = first_truthy row name_aliases /\
  row_type row = first_truthy row type_aliases /\
  row_tag row = first_truthy row tag_aliases /\
  row_cost row = first_truthy row cost_aliases.
Proof. repeat split; apply chain_first_truthy. Qed.

(** Each field is read through its list of header aliases, in the order of
    the list: the first alias whose cell is truthy gives the value, and the
    cell of the last alias is taken when no cell is truthy. *)
Lemma alias_chains (row : gmap string JsVal) :
  row_name row = first_truthy row name_aliases /\
  row_type row = first_truthy row type_aliases /\
  row_tag row = first_truthy row tag_aliases /\
  row_cost row = first_truthy row cost_aliases /\
  row_serialNumber row = first_truthy row serialNumber_aliases /\
  row_acquisitionDate row = first_truthy row acquisitionDate_aliases.
Proof. repeat split; apply chain_first_truthy. Qed.

(** C4, at the input where the code departs from it: a row with the
    columns Cost, holding the number 0, and cost, holding 7.  The column of
    highest priority, Cost, is present, and the test [cost === undefined] of
    the loop would take its 0; the chain of [||] skips the 0 and the value
    read is the 7 of the second alias. *)
Lemma present_cost_loses_to_alias :
  let row : gmap string JsVal :=
    {[ "Cost" := JNumber (Zero false); "cost" := JNumber (Dec false 7 1) ]} in
  first_present row cost_aliases = JNumber (Zero false) /\
  row_cost row = JNumber (Dec false 7 1) /\
  row_cost row <> first_present row cost_aliases /\
  import_row {| rows := []; next_id := 1 |} 2
    (<[ "Asset Name" := JString "Desk" ]>
       (<[ "Asset Type" := JString "furniture" ]>
          (<[ "Asset Tag" := JString "F-1" ]> row))) =
    inr (InsertAsset.mk "Desk" "furniture" "F-1" None "7" None).
Proof. vm_compute. repeat split; congruence. Qed.

(** ** Import: rows with missing fields *)

Lemma import_row_missing s n row :
  truthy (row_name row) = false \/ truthy (row_type row) = false \/
  truthy (row_tag row) = false \/ row_cost row = JUndefined ->
  import_row s n row = inl (missing_fields n).
Proof.
  unfold import_row.
  intros [-> | [-> | [-> | ->]]]; simpl;
    rewrite ?orb_true_r; reflexivity.
Qed.

Lemma row_cost_undefined row :
  all_falsy row ["Cost"; "cost"; "Price"] -> prop row "price" = JUndefined ->
  row_cost row = JUndefined.
Proof.
  intros H Hp. unfold row_cost.
  inversion H as [|? ? H1 H']; subst. inversion H' as [|? ? H2 H'']; subst.
  inversion H'' as [|? ? H3 _]; subst.
  rewrite (js_or_falsy_l _ _ H1), (js_or_falsy_l _ _ H2).
  by rewrite (js_or_falsy_l _ _ H3).
Qed.

(** C10, as amended: a row is rejected as missing required fields when
    every name cell, every type cell or every tag cell is absent or falsy,
    and when the cells Cost, cost and Price are absent or falsy (the number
    0 is) and there is no cell price.  (A falsy cell in the last alias
    column, price, is what the chain returns: it is kept as the cost.) *)
Theorem falsy_cell_is_missing (s : Store) (n : nat) (row : gmap string JsVal) :
  all_falsy row name_aliases \/ all_falsy row type_aliases \/
  all_falsy row tag_aliases \/
  (all_falsy row ["Cost"; "cost"; "Price"] /\ prop row "price" = JUndefined) ->
  import_row s n row = inl (missing_fields n).
Proof.
  intros H. apply import_row_missing.
  destruct (row_columns row) as (-> & -> & -> & _).
  destruct H as [H | [H | [H | [H Hp]]]].
  - left. by apply first_truthy_all_falsy.
  - right; left. by apply first_truthy_all_falsy.
  - right; right; left. by apply first_truthy_all_falsy.
  - right; right; right. by apply row_cost_undefined.
Qed.

Lemma falsy_cell_is_missing_witness :
  let row : gmap string JsVal :=
    {[ "Asset Name" := JString "Desk"; "Asset Type" := JString "furniture";
       "Asset Tag" := JString "F-1"; "Cost" := JNumber (Zero false) ]} in
  import_row {| rows := []; next_id := 1 |} 2 row = inl (missing_fields 2).
Proof.
  intros row. apply (falsy_cell_is_missing {| rows := []; next_id := 1 |} 2 row).
  right; right; right. split; [|reflexivity].
  repeat constructor.
Defined.

(** C10 as stated fails for the last alias: the only cost cell of this row
    is price and holds the number 0; the row is not rejected, its cost
    is "0". *)
Lemma falsy_cell_counterexample :
  let row : gmap string JsVal :=
    {[ "Asset Name" := JString "Desk"; "Asset Type" := JString "furniture";
       "Asset Tag" := JString "F-1"; "price" := JNumber (Zero false) ]} in
  prop row "price" = JNumber (Zero false) /\
  import_row {| rows := []; next_id := 1 |} 2 row =
    inr (InsertAsset.mk "Desk" "furniture" "F-1" None "0" None) /\
  import_row {| rows := []; next_id := 1 |} 2 row <> inl (missing_fields 2).
Proof. vm_compute. repeat split; congruence. Qed.

(** ** Import: the loop over the rows *)

(** The accumulators only grow at their end. *)
Lemma import_loop_acc s data : forall i A E,
  import_loop s i data A E =
    (A ++ (import_loop s i data [] []).1, E ++ (import_loop s i data [] []).2).
Proof.
  induction data as [|row data IH]; intros i A E; simpl.
  - by rewrite !app_nil_r.
  - destruct (import_row s (i + 2) row) as [e|a].
    + rewrite (IH (S i) A (E ++ [e])), (IH (S i) [] [e]).
      simpl. by rewrite <- app_assoc.
    + rewrite (IH (S i) (A ++ [a]) E), (IH (S i) [a] []).
      simpl. by rewrite <- app_assoc.
Qed.

(** The loop over [pre ++ post] is the loop over [pre] followed by the loop
    over [post], which starts at the index after [pre]. *)
Lemma import_loop_app s pre : forall post i A E,
  import_loop s i (pre ++ post) A E =
    import_loop s (i + length pre) post
      (import_loop s i pre A E).1 (import_loop s i pre A E).2.
Proof.
  induction pre as [|row pre IH]; intros post i A E; simpl.
  - by rewrite Nat.add_0_r.
  - replace (i + S (length pre))%nat with (S i + length pre)%nat by lia.
    destruct (import_row s (i + 2) row); apply IH.
Qed.

(** Each row adds one entry, to the batch or to the errors. *)
Lemma import_loop_length s data : forall i,
  (length (import_loop s i data [] []).1 +
   length (import_loop s i data [] []).2 = length data)%nat.
Proof.
  induction data as [|row data IH]; intros i; simpl; [done|].
  specialize (IH (S i)).
  destruct (import_row s (i + 2) row) as [e|a];
    rewrite import_loop_acc; simpl; rewrite ?length_app; simpl; lia.
Qed.

(** The error of a row names its row number: two row numbers give two
    texts. *)
Lemma length_append (a b : string) :
  String.length (a +:+ b) = (String.length a + String.length b)%nat.
Proof.
  induction a as [|x a IH]; [done|].
  change (S (String.length (a +:+ b)) = S (String.length a + String.length b)).
  by rewrite IH.
Qed.

Lemma append_cancel_r (a b c : string) : a +:+ c = b +:+ c -> a = b.
Proof.
  intros H.
  assert (Hlen : String.length a = String.length b).
  { apply (f_equal String.length) in H. rewrite !length_append in H. lia. }
  revert b H Hlen. induction a as [|x a IH]; intros [|y b] H Hlen;
    try done.
  change (String x (a +:+ c) = String y (b +:+ c)) in H.
  injection H as -> H. f_equal. apply IH; [done|]. simpl in Hlen. lia.
Qed.

Lemma to_uint_not_Nil n : Nat.to_uint n <> Decimal.Nil.
Proof.
  intros H. pose proof (DecimalNat.Unsigned.of_to n) as E.
  rewrite H in E. simpl in E. subst n. discriminate H.
Qed.

Lemma digits_of_nat_inj n m : digits_of_nat n = digits_of_nat m -> n = m.
Proof.
  unfold digits_of_nat. intros H.
  apply (f_equal NilZero.uint_of_string) in H.
  rewrite !NilZero.usu in H by apply to_uint_not_Nil. injection H as H.
  apply (f_equal Nat.of_uint) in H.
  by rewrite !DecimalNat.Unsigned.of_to in H.
Qed.

Lemma missing_fields_inj n m : n <> m -> missing_fields n <> missing_fields m.
Proof.
  intros Hne H. apply Hne. unfold missing_fields in H.
  assert (H' : String "R" (String "o" (String "w" (String " "
                 (digits_of_nat n +:+
                  ": Missing required fields (Name, Type, Tag, Cost)")))) =
               String "R" (String "o" (String "w" (String " "
                 (digits_of_nat m +:+
                  ": Missing required fields (Name, Type, Tag, Cost)")))))
    by exact H.
  injection H' as H'. apply append_cancel_r in H'.
  by apply digits_of_nat_inj.
Qed.

(** C5: a row that has no column for name, for type, for tag or for cost
    adds the error "Row n: Missing required fields (Name, Type, Tag, Cost)"
    where n is the decimal numeral of its index in the data plus 2, adds
    nothing to the batch, and the rows after it are processed as they would
    be without it.  The errors of two such rows at different indices
    differ. *)
Theorem missing_row_rejected (s : Store)
    (pre post : list (gmap string JsVal)) (row : gmap string JsVal) :
  lacks row name_aliases \/ lacks row type_aliases \/
  lacks row tag_aliases \/ lacks row cost_aliases ->
  import_loop s 0 (pre ++ row :: post) [] [] =
    ((import_loop s 0 pre [] []).1 ++
       (import_loop s (S (length pre)) post [] []).1,
     (import_loop s 0 pre [] []).2 ++
       ("Row " +:+ digits_of_nat (length pre + 2) +:+
        ": Missing required fields (Name, Type, Tag, Cost)") ::
       (import_loop s (S (length pre)) post [] []).2) /\
  (forall pre' : list (gmap string JsVal),
     length pre' <> length pre ->
     missing_fields (length pre' + 2) <> missing_fields (length pre + 2)).
Proof.
  intros H. split; [|intros pre' Hne; apply missing_fields_inj; lia].
  change ("Row " +:+ digits_of_nat (length pre + 2) +:+
          ": Missing required fields (Name, Type, Tag, Cost)")
    with (missing_fields (length pre + 2)).
  assert (Hrow : import_row s (length pre + 2) row =
                 inl (missing_fields (length pre + 2))).
  { apply import_row_missing.
    destruct (row_columns row) as (-> & -> & -> & ->).
    destruct H as [H | [H | [H | H]]]; rewrite (first_truthy_lacks _ _ H); auto. }
  rewrite import_loop_app. simpl. rewrite Hrow.
  rewrite (import_loop_acc s post (S (length pre))). simpl.
  by rewrite <- app_assoc.
Qed.

Lemma missing_row_rejected_witness :
  let good : gmap string JsVal :=
    {[ "Asset Name" := JString "Desk"; "Asset Type" := JString "furniture";
       "Asset Tag" := JString "F-1"; "Cost" := JString "80.00" ]} in
  let bad : gmap string JsVal :=
    {[ "Asset Name" := JString "Lamp"; "Asset Type" := JString "furniture";
       "Asset Tag" := JString "F-2" ]} in
  let s := {| rows := []; next_id := 1 |} in
  let v := InsertAsset.mk "Desk" "furniture" "F-1" None "80.00" None in
  import_loop s 0 ([good] ++ bad :: [good]) [] [] =
    ([v; v], ["Row 3: Missing required fields (Name, Type, Tag, Cost)"]).
Proof.
  intros good bad s v.
  assert (H : lacks bad cost_aliases) by repeat constructor.
  exact (proj1 (missing_row_rejected s [good] [good] bad
                  (or_intror (or_intror (or_intror H))))).
Defined.

(** ** The validation schemas *)

Lemma z_string_rule k v :
  match z_string k v with
  | inr s => v = JString s
  | inl e => is_string v = false /\ map path e = [k]
  end.
Proof. by destruct v. Qed.

Lemma z_string_nullish_rule k v :
  match z_string_nullish k v with
  | inr _ => is_nullish_string v = true
  | inl e => is_nullish_string v = false /\ map path e = [k]
  end.
Proof. by destruct v. Qed.

Lemma z_string_optional_rule k v :
  match z_string_optional k v with
  | inr _ => is_optional_string v = true
  | inl e => is_optional_string v = false /\ map path e = [k]
  end.
Proof. by destruct v. Qed.

Lemma z_cost_rule k v :
  match z_cost k v with
  | inr s => v = JString s /\ cost_refine s = true
  | inl e => is_cost v = false /\ map path e = [k]
  end.
Proof.
  unfold z_cost. destruct v; simpl; try done.
  by destruct (cost_refine s) eqn:E.
Qed.

Local Ltac use_rule H :=
  match type of H with
  | _ /\ _ => let E := fresh "E" in let P := fresh "P" in
              destruct H as [E P]; rewrite ?E, ?P
  | _ = JString _ => rewrite ?H
  | _ = true => rewrite ?H
  end.

(** C1, as amended: [insertAssetSchema] accepts an object only if (and in
    fact exactly when) [name], [type], [tag] and [cost] are strings, the
    empty string included, and [serialNumber] and [acquisitionDate] are each
    undefined, null or a string; [formSchema] accepts it only if, in
    addition, [parseFloat(cost)] is a number that is at least 0 and
    [acquisitionDate] is not null.  An object that breaks a rule is rejected
    with one field-level error for each key that breaks its rule, and none
    for the other keys. *)
Theorem schema_rules (o : gmap string JsVal) :
  match insertAssetSchema o with
  | inr v =>
      broken insert_rules o = [] /\
      prop o "name" = JString (InsertAsset.name v) /\
      prop o "type" = JString (InsertAsset.type v) /\
      prop o "tag" = JString (InsertAsset.tag v) /\
      prop o "cost" = JString (InsertAsset.cost v)
  | inl errors =>
      errors <> [] /\ map path errors = broken insert_rules o
  end /\
  match formSchema o with
  | inr v =>
      broken form_rules o = [] /\
      prop o "cost" = JString (FormData.cost v) /\
      cost_refine (FormData.cost v) = true
  | inl errors =>
      errors <> [] /\ map path errors = broken form_rules o
  end.
Proof.
  split.
  - unfold insertAssetSchema.
    pose proof (z_string_rule "name" (prop o "name")) as H1.
    pose proof (z_string_rule "type" (prop o "type")) as H2.
    pose proof (z_string_rule "tag" (prop o "tag")) as H3.
    pose proof (z_string_nullish_rule "serialNumber" (prop o "serialNumber")) as H4.
    pose proof (z_string_rule "cost" (prop o "cost")) as H5.
    pose proof (z_string_nullish_rule "acquisitionDate"
                  (prop o "acquisitionDate")) as H6.
    destruct (z_string "name" _), (z_string "type" _), (z_string "tag" _),
      (z_string_nullish "serialNumber" _), (z_string "cost" _),
      (z_string_nullish "acquisitionDate" _);
      simpl; use_rule H1; use_rule H2; use_rule H3; use_rule H4; use_rule H5;
      use_rule H6; simpl; rewrite ?map_app, ?E, ?E0, ?E1, ?E2, ?E3, ?E4,
        ?P, ?P0, ?P1, ?P2, ?P3, ?P4; simpl;
      (split; [try done; intros Hnil; apply (f_equal (map path)) in Hnil;
               rewrite ?map_app in Hnil; simpl in Hnil;
               rewrite ?P, ?P0, ?P1, ?P2, ?P3, ?P4 in Hnil; discriminate
              | done]).
  - unfold formSchema.
    pose proof (z_string_rule "name" (prop o "name")) as H1.
    pose proof (z_string_rule "type" (prop o "type")) as H2.
    pose proof (z_string_rule "tag" (prop o "tag")) as H3.
    pose proof (z_string_nullish_rule "serialNumber" (prop o "serialNumber")) as H4.
    pose proof (z_cost_rule "cost" (prop o "cost")) as H5.
    pose proof (z_string_optional_rule "acquisitionDate"
                  (prop o "acquisitionDate")) as H6.
    destruct (z_string "name" _), (z_string "type" _), (z_string "tag" _),
      (z_string_nullish "serialNumber" _), (z_cost "cost" _),
      (z_string_optional "acquisitionDate" _);
      simpl; use_rule H1; use_rule H2; use_rule H3; use_rule H4; use_rule H5;
      use_rule H6; simpl; rewrite ?map_app, ?E, ?E0, ?E1, ?E2, ?E3, ?E4,
        ?P, ?P0, ?P1, ?P2, ?P3, ?P4; simpl;
      (split; [try done; intros Hnil; apply (f_equal (map path)) in Hnil;
               rewrite ?map_app in Hnil; simpl in Hnil;
               rewrite ?P, ?P0, ?P1, ?P2, ?P3, ?P4 in Hnil; discriminate
              | done]).
Qed.

(** C1 as stated fails: an object whose [name] is the empty string and
    whose [cost] is not a number is accepted by [insertAssetSchema], and
    [formSchema] accepts the empty [name] too. *)
Lemma schema_rules_counterexample :
  let o : gmap string JsVal :=
    {[ "name" := JString ""; "type" := JString "laptop";
       "tag" := JString "LP-001"; "cost" := JString "abc" ]} in
  let o' : gmap string JsVal := <[ "cost" := JString "10.00" ]> o in
  spec_valid o = false /\
  insertAssetSchema o = inr (InsertAsset.mk "" "laptop" "LP-001" None "abc" None) /\
  spec_valid o' = false /\
  formSchema o' = inr (FormData.mk "" "laptop" "LP-001" None "10.00" None).
Proof. vm_compute. repeat split. Qed.

(** ** The table *)

Lemma tag_is_iff t a : tag_is t a <-> Asset.tag a = t.
Proof. unfold tag_is. rewrite Is_true_true. apply String.eqb_eq. Qed.

Lemma id_is_iff i a : id_is i a <-> Asset.id a = i.
Proof. unfold id_is. rewrite Is_true_true. apply Z.eqb_eq. Qed.

Lemma existsb_tag_is t l : existsb (tag_is t) l = false <-> t ∉ Asset.tag <$> l.
Proof.
  induction l as [|a l IH]; simpl.
  - split; [intros _; apply not_elem_of_nil | done].
  - rewrite orb_false_iff, IH, not_elem_of_cons.
    unfold tag_is. rewrite String.eqb_neq. intuition congruence.
Qed.

Lemma existsb_id_is i l : existsb (id_is i) l = false <-> i ∉ Asset.id <$> l.
Proof.
  induction l as [|a l IH]; simpl.
  - split; [intros _; apply not_elem_of_nil | done].
  - rewrite orb_false_iff, IH, not_elem_of_cons.
    unfold id_is. rewrite Z.eqb_neq. intuition congruence.
Qed.

Lemma filter_nil_not_elem t (l : list Asset.t) :
  filter (fun a => tag_is t a) l = [] <-> t ∉ Asset.tag <$> l.
Proof.
  split.
  - intros Hnil [a [-> Ha]]%list_elem_of_fmap.
    assert (a ∈ filter (fun a0 => tag_is (Asset.tag a) a0) l) as Hin
      by (apply list_elem_of_filter; split; [by apply tag_is_iff | done]).
    rewrite Hnil in Hin. by apply elem_of_nil in Hin.
  - intros Hno. destruct (filter _ l) as [|a l'] eqn:E; [done|].
    assert (a ∈ filter (fun a0 => tag_is t a0) l) as Hin
      by (rewrite E; apply list_elem_of_here).
    apply list_elem_of_filter in Hin as [Ht%tag_is_iff Hin].
    exfalso. apply Hno. apply list_elem_of_fmap. by exists a.
Qed.

Lemma filter_id_nil i (l : list Asset.t) :
  i ∉ Asset.id <$> l -> filter (fun a => id_is i a) l = [].
Proof.
  intros Hno. destruct (filter _ l) as [|a l'] eqn:E; [done|].
  assert (a ∈ filter (fun a0 => id_is i a0) l) as Hin
    by (rewrite E; apply list_elem_of_here).
  apply list_elem_of_filter in Hin as [Hi%id_is_iff Hin].
  exfalso. apply Hno. apply list_elem_of_fmap. by exists a.
Qed.

Lemma filter_id_nil_inv i (l : list Asset.t) :
  filter (fun a => id_is i a) l = [] -> i ∉ Asset.id <$> l.
Proof.
  intros Hnil [a [-> Ha]]%list_elem_of_fmap.
  assert (a ∈ filter (fun b => id_is (Asset.id a) b) l) as Hin
    by (apply list_elem_of_filter; split; [by apply id_is_iff | done]).
  rewrite Hnil in Hin. by apply elem_of_nil in Hin.
Qed.

Lemma filter_keep_all i (l : list Asset.t) :
  i ∉ Asset.id <$> l -> filter (fun a => negb (id_is i a)) l = l.
Proof.
  induction l as [|a l IH]; [done|].
  rewrite fmap_cons, not_elem_of_cons. intros [Ha Hl].
  rewrite filter_cons, decide_True; [by rewrite IH|].
  apply Is_true_true, negb_true_iff. unfold id_is.
  apply Z.eqb_neq. congruence.
Qed.

Lemma NoDup_fmap_eq {A B} (f : A -> B) (l : list A) a b :
  NoDup (f <$> l) -> a ∈ l -> b ∈ l -> f a = f b -> a = b.
Proof.
  induction l as [|c l IH]; intros Hnd Ha Hb Hf; [by apply elem_of_nil in Ha|].
  rewrite fmap_cons in Hnd. apply NoDup_cons in Hnd as [Hc Hnd].
  apply elem_of_cons in Ha as [-> | Ha]; apply elem_of_cons in Hb as [-> | Hb].
  - done.
  - exfalso. apply Hc. rewrite Hf. apply list_elem_of_fmap. by exists b.
  - exfalso. apply Hc. rewrite <- Hf. apply list_elem_of_fmap. by exists a.
  - by apply IH.
Qed.

(** The row of a given id, when ids are unique. *)
Lemma filter_id_one i (l : list Asset.t) a :
  NoDup (Asset.id <$> l) -> a ∈ l -> Asset.id a = i ->
  filter (fun b => id_is i b) l = [a].
Proof.
  induction l as [|c l IH]; intros Hnd Ha Hi; [by apply elem_of_nil in Ha|].
  rewrite fmap_cons in Hnd. apply NoDup_cons in Hnd as [Hc Hnd].
  rewrite filter_cons. apply elem_of_cons in Ha as [<- | Ha].
  - rewrite decide_True by by apply id_is_iff.
    rewrite filter_id_nil; [done | by rewrite <- Hi].
  - rewrite decide_False; [by apply IH|].
    intros Hc'%id_is_iff. apply Hc. rewrite Hc', <- Hi.
    apply list_elem_of_fmap. by exists a.
Qed.

(** The rows that a WHERE clause leaves and the rows that it takes make up
    the table. *)
Lemma filter_split (f : Asset.t -> bool) (l : list Asset.t) :
  filter (fun a => negb (f a)) l ++ filter (fun a => f a) l ≡ₚ l.
Proof.
  induction l as [|a l IH]; [done|].
  rewrite !filter_cons. destruct (f a) eqn:E; simpl.
  - rewrite <- Permutation_middle. by constructor.
  - by constructor.
Qed.

Lemma count_tag_lt_2 t (l : list Asset.t) :
  NoDup (Asset.tag <$> l) ->
  (length (filter (fun a => tag_is t a) l) < 2)%nat.
Proof.
  induction l as [|a l IH]; intros Hnd; [simpl; lia|].
  rewrite fmap_cons in Hnd. apply NoDup_cons in Hnd as [Ha Hnd].
  rewrite filter_cons. destruct (decide _) as [Ht%tag_is_iff|]; [|by apply IH].
  rewrite (proj2 (filter_nil_not_elem t l)); [simpl; lia | by rewrite <- Ht].
Qed.

Lemma filter_length_pos t (b : Asset.t) l :
  b ∈ l -> Asset.tag b = t ->
  (0 < length (filter (fun a => tag_is t a) l))%nat.
Proof.
  intros Hin Ht.
  assert (b ∈ filter (fun a => tag_is t a) l) as Hb
    by (apply list_elem_of_filter; split; [by apply tag_is_iff | done]).
  destruct (filter _ l); [by apply elem_of_nil in Hb | simpl; lia].
Qed.

(** *** SELECT *)

Lemma getAssetByTag_cases s t :
  getAssetByTag s t =
    match filter (fun a => tag_is t a) (rows s) with
    | a :: _ => Ok (Some a)
    | [] => if text_ok t then Ok None else Throw s
    end.
Proof.
  unfold getAssetByTag. destruct (filter _ (rows s)); simpl; [|done].
  by destruct (text_ok t).
Qed.

Lemma getAsset_cases s i :
  getAsset s i =
    match filter (fun a => id_is i a) (rows s) with
    | a :: _ => Ok (Some a)
    | [] => if int4 i then Ok None else Throw s
    end.
Proof.
  unfold getAsset. destruct (filter _ (rows s)); simpl; [|done].
  by destruct (int4 i).
Qed.

(** A tag that no asset holds is not found; the lookup is refused when the
    tag holds code point 0. *)
Lemma getAssetByTag_fresh s t :
  t ∉ Asset.tag <$> rows s ->
  getAssetByTag s t = if text_ok t then Ok None else Throw s.
Proof.
  intros H. rewrite getAssetByTag_cases.
  by rewrite (proj2 (filter_nil_not_elem _ _) H).
Qed.

Lemma getAssetByTag_None s t :
  getAssetByTag s t = Ok None <->
  (t ∉ Asset.tag <$> rows s) /\ text_ok t = true.
Proof.
  rewrite getAssetByTag_cases, <- filter_nil_not_elem.
  destruct (filter _ (rows s)); [|split; [done | by intros []]].
  destruct (text_ok t); split; try done; by intros [].
Qed.

Lemma getAssetByTag_Some s t a :
  getAssetByTag s t = Ok (Some a) -> a ∈ rows s /\ Asset.tag a = t.
Proof.
  rewrite getAssetByTag_cases. intros H.
  assert (a ∈ filter (fun a0 => tag_is t a0) (rows s)) as Hin.
  { destruct (filter _ (rows s)); [by destruct (text_ok t)|].
    simplify_eq/=. apply list_elem_of_here. }
  apply list_elem_of_filter in Hin as [Ht%tag_is_iff Hin]. done.
Qed.

(** A tag that an asset holds is found, whatever the tag. *)
Lemma getAssetByTag_held s t :
  t ∈ Asset.tag <$> rows s ->
  exists a, getAssetByTag s t = Ok (Some a) /\ a ∈ rows s /\ Asset.tag a = t.
Proof.
  intros Hin. rewrite getAssetByTag_cases.
  destruct (filter _ (rows s)) as [|a l] eqn:E.
  - by apply filter_nil_not_elem in E.
  - exists a. split; [done|].
    assert (a ∈ filter (fun a0 => tag_is t a0) (rows s)) as Ha
      by (rewrite E; apply list_elem_of_here).
    apply list_elem_of_filter in Ha as [Ht%tag_is_iff Ha]. done.
Qed.

(** With unique tags, the asset found by its tag is the asset that has it. *)
Lemma getAssetByTag_unique s a :
  tags_unique s -> a ∈ rows s -> getAssetByTag s (Asset.tag a) = Ok (Some a).
Proof.
  intros Hnd Hin. rewrite getAssetByTag_cases. revert Hnd Hin.
  unfold tags_unique. generalize (rows s) as l.
  induction l as [|b l IH]; intros Hnd Hin; [by apply elem_of_nil in Hin|].
  rewrite fmap_cons in Hnd. apply NoDup_cons in Hnd as [Hb Hnd].
  rewrite filter_cons. apply elem_of_cons in Hin as [<- | Hin].
  - rewrite decide_True by by apply tag_is_iff. done.
  - rewrite decide_False; [by apply IH|].
    intros Hb'%tag_is_iff. apply Hb. rewrite Hb'.
    apply list_elem_of_fmap. by exists a.
Qed.

(** *** INSERT *)

Lemma insert_rows_unique vals : forall table seq created r,
  insert_rows table seq vals created = inr r ->
  NoDup (Asset.tag <$> table) -> NoDup (Asset.tag <$> rows r.1).
Proof.
  induction vals as [|v vals IH]; intros table seq created r; simpl.
  - by intros [= <-].
  - destruct (int4 seq); simpl; [|done].
    destruct (existsb (id_is seq) table || existsb _ table) eqn:E; [done|].
    apply orb_false_iff in E as [_ E%existsb_tag_is].
    intros H Hnd. apply (IH _ _ _ _ H).
    rewrite fmap_app. apply NoDup_app. split_and!; [done| |].
    + intros x Hx Hx'. apply list_elem_of_singleton in Hx'. by subst.
    + apply NoDup_singleton.
Qed.

(** A refused INSERT leaves the sequence where it was or further on. *)
Lemma insert_rows_refused vals : forall table seq created seq',
  insert_rows table seq vals created = inl seq' -> seq <= seq'.
Proof.
  induction vals as [|v vals IH]; intros table seq created seq'; simpl;
    [done|].
  destruct (int4 seq); simpl; [|intros [= <-]; lia].
  destruct (existsb (id_is seq) table || existsb _ table);
    [intros [= <-]; lia|].
  intros H%IH. lia.
Qed.

(** *** UPDATE *)

Lemma merge_id a p : Asset.id (merge a p) = Asset.id a.
Proof. done. Qed.

Lemma set_where_no_row i p l :
  existsb (id_is i) l = false -> set_where i p l = l.
Proof.
  intros H%existsb_id_is. unfold set_where.
  by rewrite (filter_keep_all _ _ H), (filter_id_nil _ _ H), app_nil_r.
Qed.

Lemma set_where_ids i p l :
  Asset.id <$> set_where i p l ≡ₚ Asset.id <$> l.
Proof.
  unfold set_where. rewrite fmap_app, <- list_fmap_compose.
  rewrite <- (filter_split (id_is i) l) at 3. by rewrite fmap_app.
Qed.

Lemma set_where_elem i p l a :
  a ∈ l -> Asset.id a = i -> merge a p ∈ set_where i p l.
Proof.
  intros Ha Hi. unfold set_where. apply elem_of_app. right.
  apply list_elem_of_fmap. exists a. split; [done|].
  apply list_elem_of_filter. split; [by apply id_is_iff | done].
Qed.

(** Rows with another id are not touched. *)
Lemma set_where_frame i p l b :
  b ∈ l -> Asset.id b <> i -> b ∈ set_where i p l.
Proof.
  intros Hb Hi. unfold set_where. apply elem_of_app. left.
  apply list_elem_of_filter. split; [|done].
  apply Is_true_true, negb_true_iff. unfold id_is. by apply Z.eqb_neq.
Qed.

Lemma set_where_elem_inv i p l b :
  b ∈ set_where i p l ->
  (b ∈ l /\ Asset.id b <> i) \/
  (exists a, a ∈ l /\ Asset.id a = i /\ b = merge a p).
Proof.
  unfold set_where. intros [H | H]%elem_of_app.
  - left. apply list_elem_of_filter in H as [H Hb]. split; [done|].
    apply Is_true_true, negb_true_iff in H. unfold id_is in H.
    by apply Z.eqb_neq in H.
  - right. apply list_elem_of_fmap in H as [a [-> Ha]].
    apply list_elem_of_filter in Ha as [Hi%id_is_iff Ha]. by exists a.
Qed.

Lemma set_where_no_tag i p l :
  PartialAsset.tag p = None ->
  Asset.tag <$> set_where i p l ≡ₚ Asset.tag <$> l.
Proof.
  intros Hp. unfold set_where. rewrite fmap_app, <- list_fmap_compose.
  rewrite <- (filter_split (id_is i) l) at 3. rewrite fmap_app.
  assert (E : (Asset.tag ∘ (fun a => merge a p)) <$>
                filter (fun a => id_is i a) l =
              Asset.tag <$> filter (fun a => id_is i a) l).
  { apply list_fmap_ext. intros _ a _. simpl. by rewrite Hp. }
  by rewrite E.
Qed.

Lemma set_where_own_tag i p l a :
  NoDup (Asset.id <$> l) -> a ∈ l -> Asset.id a = i ->
  PartialAsset.tag p = Some (Asset.tag a) ->
  Asset.tag <$> set_where i p l ≡ₚ Asset.tag <$> l.
Proof.
  intros Hnd Ha Hi Hp. unfold set_where.
  rewrite <- (filter_split (id_is i) l) at 3.
  rewrite !fmap_app, (filter_id_one i l a) by done.
  simpl. by rewrite Hp.
Qed.

(** Rows that all carry the tag [t], added to rows with unique tags: the
    tags stay unique when [t] is then held at most once. *)
Lemma NoDup_tags_app t (l1 l2 : list Asset.t) :
  (length (filter (fun a => tag_is t a) (l1 ++ l2)) < 2)%nat ->
  Forall (fun a => Asset.tag a = t) l2 ->
  NoDup (Asset.tag <$> l1) -> NoDup (Asset.tag <$> (l1 ++ l2)).
Proof.
  intros Hlen Ht Hnd. rewrite filter_app, length_app in Hlen.
  destruct l2 as [|b [|b' l2]].
  - by rewrite app_nil_r.
  - inversion Ht as [|? ? Hb _]; subst.
    rewrite fmap_app. apply NoDup_app. split_and!; [done| |apply NoDup_singleton].
    intros x Hx Hx'. apply list_elem_of_singleton in Hx'. subst x.
    apply list_elem_of_fmap in Hx as [c [Hc Hin]].
    pose proof (filter_length_pos _ c l1 Hin (eq_sym Hc)) as Hpos.
    rewrite filter_cons, decide_True in Hlen by by apply tag_is_iff.
    simpl in Hlen, Hpos. lia.
  - inversion Ht as [|? ? Hb Ht']; subst.
    inversion Ht' as [|? ? Hb' _]; subst.
    rewrite filter_cons, decide_True in Hlen by by apply tag_is_iff.
    rewrite filter_cons, decide_True in Hlen by by apply tag_is_iff.
    simpl in Hlen. lia.
Qed.

Lemma filter_unique (P : Asset.t -> bool) (l : list Asset.t) :
  NoDup (Asset.tag <$> l) -> NoDup (Asset.tag <$> filter (fun a => P a) l).
Proof.
  intros H. eapply sublist_NoDup; [exact H|].
  apply fmap_sublist, sublist_filter.
Qed.

Lemma set_where_unique i p l :
  update_violates i p l = false ->
  NoDup (Asset.tag <$> l) -> NoDup (Asset.tag <$> set_where i p l).
Proof.
  unfold update_violates. destruct (PartialAsset.tag p) as [t|] eqn:Hp.
  - intros [E | E]%andb_false_iff Hnd.
    + by rewrite set_where_no_row.
    + apply Nat.leb_gt in E. unfold set_where in *.
      apply (NoDup_tags_app t); [lia| |by apply filter_unique].
      apply Forall_fmap, Forall_forall. intros a _. simpl. by rewrite Hp.
  - intros _ Hnd. by rewrite set_where_no_tag.
Qed.

Lemma update_keeps_tag_ok i p l a :
  NoDup (Asset.id <$> l) -> NoDup (Asset.tag <$> l) ->
  a ∈ l -> Asset.id a = i ->
  PartialAsset.tag p = None \/ PartialAsset.tag p = Some (Asset.tag a) ->
  update_violates i p l = false.
Proof.
  intros Hid Htag Ha Hi [Hp | Hp]; unfold update_violates; rewrite Hp; [done|].
  apply andb_false_iff. right. apply Nat.leb_gt.
  apply count_tag_lt_2. by rewrite (set_where_own_tag i p l a).
Qed.

Lemma store_eta s : {| rows := rows s; next_id := next_id s |} = s.
Proof. by destruct s. Qed.

(** ** The store, whatever the engine *)

Section Invariants.

Context {engine : Engine}.

(** A refused statement leaves the rows as they are; only a refused INSERT
    moves the sequence, and only ahead. *)
Lemma db_insert_Throw s vals s' :
  db_insert s vals = Throw s' -> rows s' = rows s /\ next_id s <= next_id s'.
Proof.
  unfold db_insert. destruct (mapM _ vals) as [vals'|].
  - destruct (insert_rows _ _ vals' []) as [seq|r] eqn:E; [|done].
    intros [= <-]. simpl. split; [done|].
    by apply insert_rows_refused in E.
  - intros [= <-]. split; [done | lia].
Qed.

Lemma db_update_Throw s i p s' : db_update s i p = Throw s' -> s' = s.
Proof.
  unfold db_update. destruct (bind_update p); [|by intros [= <-]].
  simpl. destruct (_ || _); [by intros [= <-] | done].
Qed.

Lemma db_delete_Throw s i s' : db_delete s i = Throw s' -> s' = s.
Proof.
  unfold db_delete. simpl. destruct (refused _ _); [by intros [= <-] | done].
Qed.

Lemma getAssetByTag_Throw s t s' :
  getAssetByTag s t = Throw s' ->
  s' = s /\ (t ∉ Asset.tag <$> rows s) /\ text_ok t = false.
Proof.
  rewrite getAssetByTag_cases.
  destruct (filter _ (rows s)) eqn:E; [|done].
  apply filter_nil_not_elem in E.
  destruct (text_ok t); [done|]. by intros [= <-].
Qed.

Lemma createAsset_Throw s v s' :
  createAsset s v = Throw s' -> rows s' = rows s /\ next_id s <= next_id s'.
Proof.
  unfold createAsset. destruct (db_insert s [v]) as [[s'' r]|s''] eqn:E;
    [done|].
  intros [= <-]. by apply db_insert_Throw in E.
Qed.

Lemma createManyAssets_Throw s vals s' :
  createManyAssets s vals = Throw s' ->
  rows s' = rows s /\ next_id s <= next_id s'.
Proof.
  unfold createManyAssets. destruct (length vals =? 0)%nat; [done|].
  apply db_insert_Throw.
Qed.

Lemma updateAsset_Throw s i p s' : updateAsset s i p = Throw s' -> s' = s.
Proof.
  unfold updateAsset. destruct (db_update s i p) as [[s'' r]|s''] eqn:E;
    [done|].
  intros [= <-]. by apply db_update_Throw in E.
Qed.

Lemma deleteAsset_Throw s i s' : deleteAsset s i = Throw s' -> s' = s.
Proof.
  unfold deleteAsset. destruct (db_delete s i) as [[s'' r]|s''] eqn:E;
    [done|].
  intros [= <-]. by apply db_delete_Throw in E.
Qed.

Lemma db_insert_unique s vals s' r :
  db_insert s vals = Ok (s', r) -> tags_unique s -> tags_unique s'.
Proof.
  unfold db_insert, tags_unique.
  destruct (mapM _ vals) as [vals'|]; [|done].
  destruct (insert_rows _ _ vals' []) as [seq|[s'' r']] eqn:E; [done|].
  intros [= <- <-] Hs. by apply (insert_rows_unique _ _ _ _ _ E).
Qed.

Lemma db_update_unique s i p s' r :
  db_update s i p = Ok (s', r) -> tags_unique s -> tags_unique s'.
Proof.
  unfold db_update, tags_unique.
  destruct (bind_update p) as [p'|]; [|done]. simpl.
  destruct (refused _ _); simpl; [done|].
  destruct (update_violates i p' (rows s)) eqn:E; [done|].
  intros [= <- <-] Hs. simpl. by apply set_where_unique.
Qed.

Lemma db_delete_unique s i s' r :
  db_delete s i = Ok (s', r) -> tags_unique s -> tags_unique s'.
Proof.
  unfold db_delete, tags_unique. simpl.
  destruct (refused _ _); [done|]. intros [= <- <-] Hs. simpl.
  by apply (filter_unique (fun a => negb (id_is i a))).
Qed.

Lemma createAsset_unique s v s' r :
  createAsset s v = Ok (s', r) -> tags_unique s -> tags_unique s'.
Proof.
  unfold createAsset.
  destruct (db_insert s [v]) as [[s'' r']|s''] eqn:E; [|done].
  intros [= <- <-]. by apply (db_insert_unique _ _ _ _ E).
Qed.

Lemma updateAsset_unique s i p s' r :
  updateAsset s i p = Ok (s', r) -> tags_unique s -> tags_unique s'.
Proof.
  unfold updateAsset.
  destruct (db_update s i p) as [[s'' r']|s''] eqn:E; [|done].
  intros [= <- <-]. by apply (db_update_unique _ _ _ _ _ E).
Qed.

Lemma deleteAsset_unique s i s' r :
  deleteAsset s i = Ok (s', r) -> tags_unique s -> tags_unique s'.
Proof.
  unfold deleteAsset.
  destruct (db_delete s i) as [[s'' r']|s''] eqn:E; [|done].
  intros [= <- <-]. by apply (db_delete_unique _ _ _ _ E).
Qed.

Lemma createManyAssets_unique s vals s' r :
  createManyAssets s vals = Ok (s', r) -> tags_unique s -> tags_unique s'.
Proof.
  unfold createManyAssets.
  destruct (length vals =? 0)%nat; [by intros [= <- <-]|].
  apply db_insert_unique.
Qed.

(** C2: tag uniqueness is an invariant.  From a state in which no two
    assets share a tag, every operation of the storage class that succeeds
    and every route leaves a state in which no two assets share a tag (a
    delete that the engine refuses leaves the state itself); this covers
    the import of a file whose rows repeat a fresh tag, whose batch the
    UNIQUE constraint of the table refuses as a whole. *)
Theorem tag_uniqueness_invariant (s : Store) :
  tags_unique s ->
  (forall v s' r, createAsset s v = Ok (s', r) -> tags_unique s') /\
  (forall i p s' r, updateAsset s i p = Ok (s', r) -> tags_unique s') /\
  (forall vals s' r, createManyAssets s vals = Ok (s', r) -> tags_unique s') /\
  (forall i s' r, deleteAsset s i = Ok (s', r) -> tags_unique s') /\
  (forall i s', deleteAsset s i = Throw s' -> s' = s) /\
  (forall req_body, tags_unique (post_asset s req_body).1) /\
  (forall id req_body, tags_unique (put_asset s id req_body).1) /\
  (forall id, tags_unique (delete_asset s id).1) /\
  (forall file, tags_unique (import_assets s file).1).
Proof.
  intros Hs. split_and!.
  - intros v s' r H. by apply (createAsset_unique _ _ _ _ H).
  - intros i p s' r H. by apply (updateAsset_unique _ _ _ _ _ H).
  - intros vals s' r H. by apply (createManyAssets_unique _ _ _ _ H).
  - intros i s' r H. by apply (deleteAsset_unique _ _ _ _ H).
  - intros i s' H. by apply deleteAsset_Throw in H.
  - intros req_body. unfold post_asset.
    destruct (insertAssetSchema req_body) as [e|v]; [done|].
    destruct (getAssetByTag s _) as [[a|]|s'] eqn:G; [done| |].
    + destruct (createAsset s v) as [[s' r]|s'] eqn:E.
      * by apply (createAsset_unique _ _ _ _ E).
      * apply createAsset_Throw in E as [E _].
        unfold tags_unique. simpl. by rewrite E.
    + by apply getAssetByTag_Throw in G as (-> & _).
  - intros [i|] req_body; [|done]. unfold put_asset.
    destruct (insertAssetSchema_partial req_body) as [e|p]; [done|].
    match goal with
    | |- context [match ?c with Ok _ => _ | Throw _ => _ end] =>
        destruct c as [existing|s'] eqn:G
    end.
    + match goal with |- context [if ?c then _ else _] => destruct c end;
        [done|].
      destruct (updateAsset s i p) as [[s' [a|]]|s'] eqn:E;
        [by apply (updateAsset_unique _ _ _ _ _ E)
        |by apply (updateAsset_unique _ _ _ _ _ E)|].
      by apply updateAsset_Throw in E as ->.
    + destruct (tag_given p); [|done].
      by apply getAssetByTag_Throw in G as (-> & _).
  - intros [i|]; [|done]. unfold delete_asset.
    destruct (deleteAsset s i) as [[s' d]|s'] eqn:E.
    + apply deleteAsset_unique in E; [|done]. by destruct d.
    + by apply deleteAsset_Throw in E as ->.
  - intros [data|]; [|done]. unfold import_assets.
    destruct (length data =? 0)%nat; [done|].
    destruct (import_loop s 0 data [] []) as [A E].
    destruct (_ && _); [done|].
    destruct (createManyAssets s A) as [[s' r]|s'] eqn:EA.
    + by apply (createManyAssets_unique _ _ _ _ EA).
    + apply createManyAssets_Throw in EA as [EA _].
      unfold tags_unique. simpl. by rewrite EA.
Qed.

End Invariants.

Lemma tag_uniqueness_invariant_witness :
  let s := {| rows := [Asset.mk 1 "Desk" "furniture" "F-1" None "80.00" None];
              next_id := 2 |} in
  let twin : gmap string JsVal :=
    {[ "Asset Name" := JString "Lamp"; "Asset Type" := JString "furniture";
       "Asset Tag" := JString "F-2"; "Cost" := JString "15.00" ]} in
  tags_unique (import_assets (engine := plain_engine) s (Some [twin; twin])).1.
Proof.
  intros s twin.
  assert (Hs : tags_unique s) by (apply NoDup_singleton).
  apply (tag_uniqueness_invariant (engine := plain_engine) s Hs).
Defined.

(** C3, at the input where the code departs from it: a file whose two rows
    carry the same fresh tag.  Both rows pass the checks of the loop, which
    looks for the tag among the persisted assets only; the table refuses the
    batch, the answer is 500 and nothing is inserted.  The two values that
    the refused INSERT drew from the sequence are spent. *)
Lemma import_same_tag_twice :
  let s := {| rows := [Asset.mk 1 "Desk" "furniture" "F-1" None "80.00" None];
              next_id := 2 |} in
  let twin : gmap string JsVal :=
    {[ "Asset Name" := JString "Lamp"; "Asset Type" := JString "furniture";
       "Asset Tag" := JString "F-2"; "Cost" := JString "15.00" ]} in
  import_loop s 0 [twin; twin] [] [] =
    ([InsertAsset.mk "Lamp" "furniture" "F-2" None "15.00" None;
      InsertAsset.mk "Lamp" "furniture" "F-2" None "15.00" None], []) /\
  import_assets (engine := plain_engine) s (Some [twin; twin]) =
    ({| rows := rows s; next_id := 4 |},
     json 500 (Message "Failed to import assets from Excel file")).
Proof. vm_compute. split; reflexivity. Qed.

(** ** Create and update *)

Lemma wf_fresh_id s : wf s -> next_id s ∉ Asset.id <$> rows s.
Proof.
  intros [_ Hlt] [a [Ha Hin]]%list_elem_of_fmap.
  rewrite Forall_forall in Hlt. specialize (Hlt a Hin). lia.
Qed.

Section Routes.

Context {engine : Engine}.

Lemma text_column_Some x y : text_column x = Some y -> y = x /\ text_ok x = true.
Proof. unfold text_column. destruct (text_ok x); [by intros [= <-] | done]. Qed.

Lemma optional_text_column o o' :
  optional text_column o = Some o' ->
  o' = o /\ forall t, o = Some t -> text_ok t = true.
Proof.
  destruct o as [x|]; simpl; [|by intros [= <-]].
  destruct (text_column x) as [y|] eqn:E; simpl; [|done].
  apply text_column_Some in E as [-> E]. intros [= <-].
  split; [done|]. by intros t [= <-].
Qed.

Lemma nullable_text_column o o' : nullable text_column o = Some o' -> o' = o.
Proof.
  destruct o as [[x|]|]; simpl; try by intros [= <-].
  destruct (text_column x) as [y|] eqn:E; simpl; [|done].
  apply text_column_Some in E as [-> E]. by intros [= <-].
Qed.

(** What the engine stores for the values it takes: the texts as they are,
    the cost and the date in the form of their columns. *)
Lemma bind_insert_Some v v' :
  bind_insert v = Some v' ->
  InsertAsset.name v' = InsertAsset.name v /\
  InsertAsset.type v' = InsertAsset.type v /\
  InsertAsset.tag v' = InsertAsset.tag v /\
  InsertAsset.serialNumber v' = InsertAsset.serialNumber v /\
  numeric_column (InsertAsset.cost v) = Some (InsertAsset.cost v') /\
  nullable date_column (InsertAsset.acquisitionDate v) =
    Some (InsertAsset.acquisitionDate v') /\
  text_ok (InsertAsset.tag v) = true.
Proof.
  unfold bind_insert. intros H.
  apply bind_Some in H as (n & [-> _]%text_column_Some & H).
  apply bind_Some in H as (ty & [-> _]%text_column_Some & H).
  apply bind_Some in H as (tg & [-> Htg]%text_column_Some & H).
  apply bind_Some in H as (sn & ->%nullable_text_column & H).
  apply bind_Some in H as (c & Hc & H).
  apply bind_Some in H as (d & Hd & H).
  injection H as <-. done.
Qed.

Lemma bind_insert_keeps v v' :
  bind_insert v = Some v' ->
  InsertAsset.name v' = InsertAsset.name v /\
  InsertAsset.type v' = InsertAsset.type v /\
  InsertAsset.tag v' = InsertAsset.tag v /\
  InsertAsset.serialNumber v' = InsertAsset.serialNumber v.
Proof. intros (? & ? & ? & ? & _)%bind_insert_Some. done. Qed.

(** A tag with code point 0 is among the values the engine refuses. *)
Lemma bind_insert_tag v : text_ok (InsertAsset.tag v) = false -> bind_insert v = None.
Proof.
  intros H. destruct (bind_insert v) as [v'|] eqn:E; [|done].
  apply bind_insert_Some in E as (_ & _ & _ & _ & _ & _ & E). congruence.
Qed.

Lemma bind_update_Some p p' :
  bind_update p = Some p' ->
  no_values p = false /\
  PartialAsset.name p' = PartialAsset.name p /\
  PartialAsset.type p' = PartialAsset.type p /\
  PartialAsset.tag p' = PartialAsset.tag p /\
  PartialAsset.serialNumber p' = PartialAsset.serialNumber p /\
  optional numeric_column (PartialAsset.cost p) = Some (PartialAsset.cost p') /\
  nullable date_column (PartialAsset.acquisitionDate p) =
    Some (PartialAsset.acquisitionDate p') /\
  (forall t, PartialAsset.tag p = Some t -> text_ok t = true).
Proof.
  unfold bind_update. destruct (no_values p); [done|]. intros H.
  apply bind_Some in H as (n & [-> _]%optional_text_column & H).
  apply bind_Some in H as (ty & [-> _]%optional_text_column & H).
  apply bind_Some in H as (tg & [-> Htg]%optional_text_column & H).
  apply bind_Some in H as (sn & ->%nullable_text_column & H).
  apply bind_Some in H as (c & Hc & H).
  apply bind_Some in H as (d & Hd & H).
  injection H as <-. done.
Qed.

Lemma bind_update_keeps p p' :
  bind_update p = Some p' ->
  PartialAsset.name p' = PartialAsset.name p /\
  PartialAsset.type p' = PartialAsset.type p /\
  PartialAsset.tag p' = PartialAsset.tag p /\
  PartialAsset.serialNumber p' = PartialAsset.serialNumber p.
Proof. intros (_ & ? & ? & ? & ? & _)%bind_update_Some. done. Qed.

(** One row, a fresh tag and a sequence that is ahead of the ids and has
    not left the range of [id]: the INSERT appends the row. *)
Lemma createAsset_fresh s v v' :
  wf s -> int4 (next_id s) = true ->
  InsertAsset.tag v ∉ Asset.tag <$> rows s ->
  bind_insert v = Some v' ->
  createAsset s v =
    Ok ({| rows := rows s ++ [new_row (next_id s) v'];
           next_id := next_id s + 1 |},
        Some (new_row (next_id s) v')).
Proof.
  intros Hwf Hseq Hfresh Hbind.
  destruct (bind_insert_keeps _ _ Hbind) as (_ & _ & Htag & _).
  unfold createAsset, db_insert. simpl. rewrite Hbind. simpl.
  rewrite Hseq. simpl.
  rewrite (proj2 (existsb_id_is _ _) (wf_fresh_id _ Hwf)).
  rewrite Htag, (proj2 (existsb_tag_is _ _) Hfresh). done.
Qed.

(** Values that the engine refuses: nothing is written and the sequence
    stays. *)
Lemma createAsset_refused s v :
  bind_insert v = None -> createAsset s v = Throw s.
Proof. intros H. unfold createAsset, db_insert. simpl. by rewrite H. Qed.

(** C6, as amended: for a body that the schema accepts, [POST /api/assets]
    answers 409 and leaves the store as it is when an asset holds the tag.
    When the tag is fresh and the engine takes the values (no text with
    code point 0, a cost and a date that their columns read), in a store
    whose sequence is ahead of its ids and within the range of [id], it
    answers 201 with the new asset, which carries the texts of the body,
    the cost and the date as their columns store them, and the next value
    of the sequence as its id, an id that no asset holds.  When the tag is
    fresh and the engine refuses a value, it answers 500 and adds no
    asset. *)
Theorem create_conflict_or_insert (s : Store)
    (req_body : gmap string JsVal) (v : InsertAsset.t) :
  insertAssetSchema req_body = inr v ->
  (InsertAsset.tag v ∈ Asset.tag <$> rows s ->
   post_asset s req_body =
     (s, json 409 (Message "Asset tag already exists"))) /\
  (forall v', wf s -> int4 (next_id s) = true ->
     InsertAsset.tag v ∉ Asset.tag <$> rows s ->
     bind_insert v = Some v' ->
     let asset :=
       Asset.mk (next_id s) (InsertAsset.name v) (InsertAsset.type v)
         (InsertAsset.tag v) (mjoin (InsertAsset.serialNumber v))
         (InsertAsset.cost v') (mjoin (InsertAsset.acquisitionDate v')) in
     post_asset s req_body =
       ({| rows := rows s ++ [asset]; next_id := next_id s + 1 |},
        json 201 (AssetJson (Some asset))) /\
     numeric_column (InsertAsset.cost v) = Some (Asset.cost asset) /\
     nullable date_column (InsertAsset.acquisitionDate v) =
       Some (InsertAsset.acquisitionDate v') /\
     Asset.id asset ∉ Asset.id <$> rows s) /\
  (InsertAsset.tag v ∉ Asset.tag <$> rows s -> bind_insert v = None ->
   (post_asset s req_body).2 = json 500 (Message "Failed to create asset") /\
   rows (post_asset s req_body).1 = rows s).
Proof.
  intros Hparse. unfold post_asset. rewrite Hparse. split_and!.
  - intros Hin.
    by destruct (getAssetByTag_held _ _ Hin) as (a & -> & _).
  - intros v' Hwf Hseq Hfresh Hbind.
    destruct (bind_insert_Some _ _ Hbind)
      as (Hn & Hty & Htg & Hsn & Hc & Hd & Hok).
    rewrite (getAssetByTag_fresh _ _ Hfresh), Hok.
    rewrite (createAsset_fresh _ _ _ Hwf Hseq Hfresh Hbind).
    unfold new_row. rewrite Hn, Hty, Htg, Hsn.
    split_and!; [done | done | done | by apply wf_fresh_id].
  - intros Hfresh Hbind.
    rewrite (getAssetByTag_fresh _ _ Hfresh).
    destruct (text_ok (InsertAsset.tag v)); [|done].
    by rewrite (createAsset_refused _ _ Hbind).
Qed.

Lemma tag_given_Some p t :
  PartialAsset.tag p = Some t -> t <> "" -> tag_given p = Some t.
Proof.
  unfold tag_given. intros -> Ht. by rewrite (proj2 (String.eqb_neq _ _) Ht).
Qed.

Lemma tag_given_inv p t :
  tag_given p = Some t -> PartialAsset.tag p = Some t /\ t <> "".
Proof.
  unfold tag_given. destruct (PartialAsset.tag p) as [t'|]; [|done].
  destruct (String.eqb_spec t' ""); [done|]. by intros [= <-].
Qed.

(** The lookup of the update route when the patch carries no tag, the
    empty tag, or the own tag of the asset [i]: no conflict. *)
Lemma put_lookup_own s i p a :
  tags_unique s -> a ∈ rows s -> Asset.id a = i ->
  PartialAsset.tag p = None \/ PartialAsset.tag p = Some (Asset.tag a) ->
  exists existing,
    match tag_given p with
    | Some t => getAssetByTag s t
    | None => Ok None
    end = Ok existing /\
    match existing with
    | Some existingAsset => negb (Asset.id existingAsset =? i)
    | None => false
    end = false.
Proof.
  intros Htags Ha Hi Hp.
  destruct (tag_given p) as [t|] eqn:E; [|by exists None].
  apply tag_given_inv in E as [E Hne].
  destruct Hp as [Hp | Hp]; [congruence|].
  rewrite Hp in E. injection E as <-.
  exists (Some a). rewrite (getAssetByTag_unique _ _ Htags Ha).
  split; [done|]. by rewrite (proj2 (Z.eqb_eq _ _) Hi).
Qed.

(** The same lookup when the tag of the patch, if it has one, is the empty
    tag or a tag that no asset holds: no conflict when the engine takes the
    tag, a rejection when it does not. *)
Lemma put_lookup_fresh s p :
  (forall t, PartialAsset.tag p = Some t ->
     t = "" \/ t ∉ Asset.tag <$> rows s) ->
  match tag_given p with
  | Some t => getAssetByTag s t
  | None => Ok None
  end = Ok None \/
  (match tag_given p with
   | Some t => getAssetByTag s t
   | None => Ok None
   end = Throw s /\
   exists t, PartialAsset.tag p = Some t /\ text_ok t = false).
Proof.
  intros Hp. destruct (tag_given p) as [t|] eqn:E; [|by left].
  apply tag_given_inv in E as [E Hne].
  destruct (Hp t E) as [-> | Hfresh]; [done|].
  rewrite (getAssetByTag_fresh _ _ Hfresh).
  destruct (text_ok t) eqn:Hok; [by left|]. right. split; [done|].
  by exists t.
Qed.

(** C7, as amended.  For a body that the partial schema accepts and a
    store with unique tags and ids: (1) when the patch carries a non-empty
    tag held by an asset of another id, [PUT /api/assets/:id] answers 409,
    also when no asset has the id; (2) when the id lies in the range of
    [id], no asset has it, the patch carries no such tag and the engine
    takes the patch (it has a key, no text with code point 0, a cost and a
    date that their columns read), it answers 404; (3) when the asset
    exists, the patch leaves the tag out or carries the asset's own tag
    and the engine takes the patch, the update succeeds with the merged
    asset, which is then the last row of the table.  In cases (1) and (2)
    the store is unchanged.  (4) Where (2) or (3) would apply but the
    engine refuses the patch, and where no asset has the id and the id
    lies outside the range of [id], the answer is 500 and the store is
    unchanged. *)
Theorem update_outcomes (s : Store) (i : Z)
    (req_body : gmap string JsVal) (p : PartialAsset.t) :
  insertAssetSchema_partial req_body = inr p ->
  tags_unique s -> NoDup (Asset.id <$> rows s) ->
  (forall a, a ∈ rows s -> PartialAsset.tag p = Some (Asset.tag a) ->
     Asset.tag a <> "" -> Asset.id a <> i ->
     put_asset s (Some i) req_body =
       (s, json 409 (Message "Asset tag already exists"))) /\
  (forall p', int4 i = true -> i ∉ Asset.id <$> rows s ->
     (forall t, PartialAsset.tag p = Some t ->
        t = "" \/ t ∉ Asset.tag <$> rows s) ->
     bind_update p = Some p' ->
     put_asset s (Some i) req_body =
       (s, json 404 (Message "Asset not found"))) /\
  (forall a p', a ∈ rows s -> Asset.id a = i ->
     PartialAsset.tag p = None \/ PartialAsset.tag p = Some (Asset.tag a) ->
     bind_update p = Some p' ->
     put_asset s (Some i) req_body =
       ({| rows := filter (fun b => negb (id_is i b)) (rows s) ++ [merge a p'];
           next_id := next_id s |},
        json 200 (AssetJson (Some (merge a p'))))) /\
  (forall a, a ∈ rows s -> Asset.id a = i ->
     PartialAsset.tag p = None \/ PartialAsset.tag p = Some (Asset.tag a) ->
     bind_update p = None ->
     put_asset s (Some i) req_body =
       (s, json 500 (Message "Failed to update asset"))) /\
  (i ∉ Asset.id <$> rows s ->
     (forall t, PartialAsset.tag p = Some t ->
        t = "" \/ t ∉ Asset.tag <$> rows s) ->
     bind_update p = None \/ int4 i = false ->
     put_asset s (Some i) req_body =
       (s, json 500 (Message "Failed to update asset"))).
Proof.
  intros Hparse Htags Hids. unfold put_asset. rewrite Hparse.
  split_and!.
  - intros a Ha Hp Hne Hi.
    rewrite (tag_given_Some _ _ Hp Hne), (getAssetByTag_unique _ _ Htags Ha).
    by rewrite (proj2 (Z.eqb_neq _ _) Hi).
  - intros p' Hint Hi Hp Hbind.
    destruct (bind_update_Some _ _ Hbind) as (_ & _ & _ & _ & _ & _ & _ & Hok).
    destruct (put_lookup_fresh s p Hp) as [-> | [_ (t & Ht & Hbad)]];
      [|rewrite (Hok t Ht) in Hbad; done].
    unfold updateAsset, db_update. rewrite Hbind. simpl.
    assert (Hex : existsb (id_is i) (rows s) = false)
      by by apply existsb_id_is.
    rewrite (filter_id_nil _ _ Hi). simpl. rewrite Hint. simpl.
    unfold update_violates. rewrite Hex.
    destruct (PartialAsset.tag p'); simpl;
      rewrite (set_where_no_row _ _ _ Hex); by rewrite store_eta.
  - intros a p' Ha Hi Hp Hbind.
    destruct (put_lookup_own s i p a Htags Ha Hi Hp) as (ex & -> & ->).
    unfold updateAsset, db_update. rewrite Hbind.
    destruct (bind_update_keeps _ _ Hbind) as (_ & _ & Htg & _).
    cbv zeta. rewrite (filter_id_one i (rows s) a) by done.
    rewrite (update_keeps_tag_ok i p' (rows s) a); try done;
      [|by rewrite Htg].
    unfold set_where. by rewrite (filter_id_one i (rows s) a).
  - intros a Ha Hi Hp Hbind.
    destruct (put_lookup_own s i p a Htags Ha Hi Hp) as (ex & -> & ->).
    unfold updateAsset, db_update. by rewrite Hbind.
  - intros Hi Hp Hbad.
    destruct (put_lookup_fresh s p Hp) as [-> | [-> _]]; [|done].
    unfold updateAsset, db_update.
    destruct (bind_update p) as [p'|]; [|done].
    destruct Hbad as [Hbad | Hint]; [done|].
    cbv zeta. rewrite (filter_id_nil _ _ Hi). simpl. by rewrite Hint.
Qed.

End Routes.

Lemma create_conflict_or_insert_witness :
  let s := {| rows := [Asset.mk 1 "Desk" "furniture" "F-1" None "80.00" None];
              next_id := 2 |} in
  let req_body : gmap string JsVal :=
    {[ "name" := JString "Lamp"; "type" := JString "furniture";
       "tag" := JString "F-2"; "cost" := JString "15.00";
       "acquisitionDate" := JString "2025-06-25" ]} in
  let taken : gmap string JsVal := <[ "tag" := JString "F-1" ]> req_body in
  let asset :=
    Asset.mk 2 "Lamp" "furniture" "F-2" None "15.00" (Some "2025-06-25") in
  post_asset (engine := plain_engine) s taken =
    (s, json 409 (Message "Asset tag already exists")) /\
  post_asset (engine := plain_engine) s req_body =
    ({| rows := rows s ++ [asset]; next_id := 3 |},
     json 201 (AssetJson (Some asset))) /\
  Asset.id asset ∉ Asset.id <$> rows s.
Proof.
  intros s req_body taken asset.
  assert (Hwf : wf s).
  { split; [apply NoDup_singleton | repeat constructor]. }
  assert (Hfresh : "F-2" ∉ Asset.tag <$> rows s).
  { intros Hin. apply list_elem_of_singleton in Hin. discriminate. }
  assert (Htaken : "F-1" ∈ Asset.tag <$> rows s) by apply list_elem_of_here.
  split.
  - exact (proj1 (create_conflict_or_insert (engine := plain_engine) s taken
                    (InsertAsset.mk "Lamp" "furniture" "F-1" None "15.00"
                       (Some (Some "2025-06-25"))) eq_refl) Htaken).
  - pose proof (proj1 (proj2 (create_conflict_or_insert
                    (engine := plain_engine) s req_body
                    (InsertAsset.mk "Lamp" "furniture" "F-2" None "15.00"
                       (Some (Some "2025-06-25"))) eq_refl))
                 (InsertAsset.mk "Lamp" "furniture" "F-2" None "15.00"
                    (Some (Some "2025-06-25"))) Hwf eq_refl Hfresh eq_refl)
      as (H1 & _ & _ & H2).
    split; [exact H1 | exact H2].
Defined.

(** C6 as stated fails: the tag of each of these bodies is fresh and the
    schema accepts them, yet there is no 201 and no new asset.  The cost of
    the first is no number; the name of the second holds code point 0; the
    cost of the third does not fit [decimal(10,2)]. *)
Lemma create_conflict_or_insert_counterexample :
  let s := {| rows := [Asset.mk 1 "Desk" "furniture" "F-1" None "80.00" None];
              next_id := 2 |} in
  let word : gmap string JsVal :=
    {[ "name" := JString "Lamp"; "type" := JString "furniture";
       "tag" := JString "F-2"; "cost" := JString "abc" ]} in
  let nul : gmap string JsVal :=
    {[ "name" := JString (String Ascii.zero "Lamp");
       "type" := JString "furniture";
       "tag" := JString "F-2"; "cost" := JString "15.00" ]} in
  let large : gmap string JsVal :=
    {[ "name" := JString "Lamp"; "type" := JString "furniture";
       "tag" := JString "F-2"; "cost" := JString "123456789012" ]} in
  insertAssetSchema word =
    inr (InsertAsset.mk "Lamp" "furniture" "F-2" None "abc" None) /\
  insertAssetSchema nul =
    inr (InsertAsset.mk (String Ascii.zero "Lamp") "furniture" "F-2" None
           "15.00" None) /\
  getAssetByTag s "F-2" = Ok None /\
  post_asset (engine := plain_engine) s word =
    (s, json 500 (Message "Failed to create asset")) /\
  post_asset (engine := plain_engine) s nul =
    (s, json 500 (Message "Failed to create asset")) /\
  (post_asset (engine := plain_engine) s large).2 =
    json 500 (Message "Failed to create asset").
Proof. vm_compute. repeat split. Qed.

Lemma update_outcomes_witness :
  let a := Asset.mk 1 "Desk" "furniture" "F-1" None "80.00" None in
  let b := Asset.mk 2 "Lamp" "furniture" "F-2" None "15.00" None in
  let s := {| rows := [a; b]; next_id := 3 |} in
  let own : gmap string JsVal :=
    {[ "tag" := JString "F-1"; "name" := JString "Oak desk" ]} in
  let other : gmap string JsVal := {[ "tag" := JString "F-2" ]} in
  let cost : gmap string JsVal := {[ "cost" := JString "99.00" ]} in
  let word : gmap string JsVal := {[ "cost" := JString "abc" ]} in
  put_asset (engine := plain_engine) s (Some 1) other =
    (s, json 409 (Message "Asset tag already exists")) /\
  put_asset (engine := plain_engine) s (Some 9) cost =
    (s, json 404 (Message "Asset not found")) /\
  put_asset (engine := plain_engine) s (Some 1) own =
    ({| rows := [b; Asset.mk 1 "Oak desk" "furniture" "F-1" None "80.00" None];
        next_id := 3 |},
     json 200
       (AssetJson
          (Some (Asset.mk 1 "Oak desk" "furniture" "F-1" None "80.00" None)))) /\
  put_asset (engine := plain_engine) s (Some 1) word =
    (s, json 500 (Message "Failed to update asset")) /\
  put_asset (engine := plain_engine) s (Some 2147483648) cost =
    (s, json 500 (Message "Failed to update asset")).
Proof.
  intros a b s own other cost word.
  assert (Hids : NoDup (Asset.id <$> rows s)).
  { apply NoDup_cons. split; [|apply NoDup_singleton].
    intros Hin. apply list_elem_of_singleton in Hin. discriminate. }
  assert (Htags : tags_unique s).
  { apply NoDup_cons. split; [|apply NoDup_singleton].
    intros Hin. apply list_elem_of_singleton in Hin. discriminate. }
  assert (Ha : a ∈ rows s) by apply list_elem_of_here.
  assert (Hb : b ∈ rows s) by apply list_elem_of_further, list_elem_of_here.
  assert (H9 : forall i, 2 < i -> i ∉ Asset.id <$> rows s).
  { intros i Hi Hin. apply elem_of_cons in Hin as [Hin | Hin];
      [simpl in Hin; lia|].
    apply list_elem_of_singleton in Hin. simpl in Hin. lia. }
  split_and!.
  - exact (proj1 (update_outcomes (engine := plain_engine) s 1 other
                    (PartialAsset.mk None None (Some "F-2") None None None)
                    eq_refl Htags Hids)
                 b Hb eq_refl ltac:(discriminate) ltac:(discriminate)).
  - exact (proj1 (proj2 (update_outcomes (engine := plain_engine) s 9 cost
                           (PartialAsset.mk None None None None
                              (Some "99.00") None)
                           eq_refl Htags Hids))
                 (PartialAsset.mk None None None None (Some "99.00") None)
                 eq_refl (H9 9 ltac:(lia)) ltac:(discriminate) eq_refl).
  - exact (proj1 (proj2 (proj2 (update_outcomes (engine := plain_engine) s 1
                           own
                           (PartialAsset.mk (Some "Oak desk") None
                              (Some "F-1") None None None)
                           eq_refl Htags Hids)))
                 a
                 (PartialAsset.mk (Some "Oak desk") None (Some "F-1") None
                    None None)
                 Ha eq_refl (or_intror eq_refl) eq_refl).
  - exact (proj1 (proj2 (proj2 (proj2 (update_outcomes
                           (engine := plain_engine) s 1 word
                           (PartialAsset.mk None None None None
                              (Some "abc") None)
                           eq_refl Htags Hids))))
                 a Ha eq_refl (or_introl eq_refl) eq_refl).
  - exact (proj2 (proj2 (proj2 (proj2 (update_outcomes
                           (engine := plain_engine) s 2147483648 cost
                           (PartialAsset.mk None None None None
                              (Some "99.00") None)
                           eq_refl Htags Hids))))
                 (H9 2147483648 ltac:(lia)) ltac:(discriminate)
                 (or_intror eq_refl)).
Defined.

(** C7 as stated fails: no asset has the id 2, yet the update of id 2 with
    the tag of asset 1 answers 409, not 404. *)
Lemma update_outcomes_counterexample :
  let s := {| rows := [Asset.mk 1 "Desk" "furniture" "F-1" None "80.00" None];
              next_id := 2 |} in
  let req_body : gmap string JsVal := {[ "tag" := JString "F-1" ]} in
  getAsset s 2 = Ok None /\
  put_asset (engine := plain_engine) s (Some 2) req_body =
    (s, json 409 (Message "Asset tag already exists")) /\
  status (put_asset (engine := plain_engine) s (Some 2) req_body).2 <> 404.
Proof. vm_compute. repeat split; congruence. Qed.

(** ** Partial update *)

Section Update.

Context {engine : Engine}.

(** C9, as amended: on an existing asset, an update whose patch has only
    the key [cost] returns the asset with [cost] set to the given value as
    the column [decimal(10,2)] stores it, and with [id], [name], [type],
    [tag], [serialNumber] and [acquisitionDate] as they were; the cost is
    the given text itself when the column stores that text as it is.  In
    general the returned asset has, for each key of the patch, the value
    given (for [cost] and [acquisitionDate]: as stored) and, for each key
    left out, the prior value; the other assets are not touched. *)
Theorem update_overwrites_patch_keys (s : Store) (i : Z) (a : Asset.t) :
  NoDup (Asset.id <$> rows s) -> a ∈ rows s -> Asset.id a = i ->
  (forall v c, numeric_column v = Some c ->
     exists s',
       updateAsset s i (PartialAsset.mk None None None None (Some v) None) =
         Ok (s', Some (Asset.mk (Asset.id a) (Asset.name a) (Asset.type a)
                         (Asset.tag a) (Asset.serialNumber a) c
                         (Asset.acquisitionDate a)))) /\
  (forall v, numeric_column v = Some v ->
     exists s',
       updateAsset s i (PartialAsset.mk None None None None (Some v) None) =
         Ok (s', Some (Asset.mk (Asset.id a) (Asset.name a) (Asset.type a)
                         (Asset.tag a) (Asset.serialNumber a) v
                         (Asset.acquisitionDate a)))) /\
  (forall p s' r, updateAsset s i p = Ok (s', r) ->
     exists a', r = Some a' /\ a' ∈ rows s' /\
       Asset.id a' = Asset.id a /\
       Asset.name a' = default (Asset.name a) (PartialAsset.name p) /\
       Asset.type a' = default (Asset.type a) (PartialAsset.type p) /\
       Asset.tag a' = default (Asset.tag a) (PartialAsset.tag p) /\
       Asset.serialNumber a' =
         default (Asset.serialNumber a) (PartialAsset.serialNumber p) /\
       match PartialAsset.cost p with
       | Some v => numeric_column v = Some (Asset.cost a')
       | None => Asset.cost a' = Asset.cost a
       end /\
       match PartialAsset.acquisitionDate p with
       | Some (Some d) => Some <$> date_column d = Some (Asset.acquisitionDate a')
       | Some None => Asset.acquisitionDate a' = None
       | None => Asset.acquisitionDate a' = Asset.acquisitionDate a
       end /\
       (forall b, b ∈ rows s -> Asset.id b <> i -> b ∈ rows s')).
Proof.
  intros Hids Ha Hi.
  assert (Hcost : forall v c, numeric_column v = Some c ->
     exists s',
       updateAsset s i (PartialAsset.mk None None None None (Some v) None) =
         Ok (s', Some (Asset.mk (Asset.id a) (Asset.name a) (Asset.type a)
                         (Asset.tag a) (Asset.serialNumber a) c
                         (Asset.acquisitionDate a)))).
  { intros v c Hv. eexists.
    unfold updateAsset, db_update, bind_update. simpl. rewrite Hv. simpl.
    by rewrite (filter_id_one i (rows s) a). }
  split_and!; [exact Hcost | intros v Hv; by apply Hcost |].
  intros p s' r. unfold updateAsset, db_update.
  destruct (bind_update p) as [p'|] eqn:Hbind; [|done]. cbv zeta.
  rewrite (filter_id_one i (rows s) a) by done. simpl.
  destruct (update_violates i p' (rows s)); [done|].
  intros [= <- <-]. exists (merge a p').
  destruct (bind_update_Some _ _ Hbind)
    as (_ & Hn & Hty & Htg & Hsn & Hc & Hd & _).
  simpl. rewrite Hn, Hty, Htg, Hsn. split_and!; try done.
  - by apply set_where_elem.
  - destruct (PartialAsset.cost p) as [v|]; simpl in Hc.
    + destruct (numeric_column v) as [c|]; simpl in Hc; [|done].
      by injection Hc as <-.
    + by injection Hc as <-.
  - destruct (PartialAsset.acquisitionDate p) as [[d|]|]; simpl in Hd.
    + destruct (date_column d) as [d'|]; simpl in Hd; [|done].
      by injection Hd as <-.
    + by injection Hd as <-.
    + by injection Hd as <-.
  - intros b Hb Hne. by apply set_where_frame.
Qed.

End Update.

Lemma update_overwrites_patch_keys_witness :
  let a := Asset.mk 1 "Desk" "furniture" "F-1" (Some "SN-9") "80.00"
             (Some "2025-06-25") in
  let s := {| rows := [a]; next_id := 2 |} in
  exists s',
    updateAsset (engine := plain_engine) s 1
      (PartialAsset.mk None None None None (Some "150.00") None) =
    Ok (s', Some (Asset.mk 1 "Desk" "furniture" "F-1" (Some "SN-9") "150.00"
                    (Some "2025-06-25"))).
Proof.
  intros a s.
  assert (Hids : NoDup (Asset.id <$> rows s)) by apply NoDup_singleton.
  assert (Hin : a ∈ rows s) by apply list_elem_of_here.
  exact (proj1 (proj2 (update_overwrites_patch_keys (engine := plain_engine)
                         s 1 a Hids Hin eq_refl)) "150.00" eq_refl).
Defined.

(** C9 as stated fails: the cost given is 150, the cost of the updated
    asset is 150.00. *)
Lemma update_overwrites_patch_keys_counterexample :
  let a := Asset.mk 1 "Desk" "furniture" "F-1" (Some "SN-9") "80.00"
             (Some "2025-06-25") in
  let a' := Asset.mk 1 "Desk" "furniture" "F-1" (Some "SN-9") "150.00"
              (Some "2025-06-25") in
  let s := {| rows := [a]; next_id := 2 |} in
  updateAsset (engine := plain_engine) s 1
    (PartialAsset.mk None None None None (Some "150") None) =
    Ok ({| rows := [a']; next_id := 2 |}, Some a') /\
  Asset.cost a' <> "150".
Proof. vm_compute. split; congruence. Qed.

(** ** Import: the batch *)

(** The loop never sees a ZodError: every key of [assetData] is a string or
    undefined. *)
Lemma assetData_valid row :
  insertAssetSchema (assetData row) =
    inr (InsertAsset.mk (String_ (row_name row)) (String_ (row_type row))
           (String_ (row_tag row)) (optional_text (row_serialNumber row))
           (String_ (row_cost row))
           (optional_text (row_acquisitionDate row))).
Proof.
  unfold insertAssetSchema, assetData, string_or_undefined, optional_text.
  destruct (truthy (row_serialNumber row)),
    (truthy (row_acquisitionDate row)); reflexivity.
Qed.

(** What the body of the loop does with a row. *)
Lemma import_row_cases s n row :
  import_row s n row =
    if negb (truthy (row_name row)) || negb (truthy (row_type row)) ||
       negb (truthy (row_tag row)) || is_undefined (row_cost row)
    then inl (missing_fields n)
    else if existsb (tag_is (String_ (row_tag row))) (rows s)
    then inl (tag_exists n (row_tag row))
    else if text_ok (String_ (row_tag row))
    then inr (InsertAsset.mk (String_ (row_name row)) (String_ (row_type row))
                (String_ (row_tag row)) (optional_text (row_serialNumber row))
                (String_ (row_cost row))
                (optional_text (row_acquisitionDate row)))
    else inl (invalid_data n).
Proof.
  unfold import_row. destruct (_ || _); [done|].
  rewrite assetData_valid.
  destruct (existsb _ (rows s)) eqn:E.
  - destruct (existsb_tag_is (String_ (row_tag row)) (rows s)) as [_ H].
    destruct (decide (String_ (row_tag row) ∈ Asset.tag <$> rows s))
      as [Hin|Hno]; [|rewrite (H Hno) in E; done].
    by destruct (getAssetByTag_held _ _ Hin) as (a & -> & _).
  - apply existsb_tag_is in E. rewrite (getAssetByTag_fresh _ _ E).
    by destruct (text_ok _).
Qed.

(** Every asset of the batch carries a tag that no persisted asset holds. *)
Lemma import_loop_fresh s data : forall i,
  Forall (fun v => InsertAsset.tag v ∉ Asset.tag <$> rows s)
    (import_loop s i data [] []).1.
Proof.
  induction data as [|row data IH]; intros i; simpl; [constructor|].
  destruct (import_row s (i + 2) row) as [e|v] eqn:E;
    rewrite import_loop_acc; simpl; [apply IH|].
  constructor; [|apply IH].
  rewrite import_row_cases in E.
  destruct (_ || _); [done|].
  destruct (existsb _ (rows s)) eqn:Ex; [done|].
  destruct (text_ok _); [|done].
  injection E as <-. simpl. by apply existsb_tag_is.
Qed.

Lemma int4_iff i : int4 i = true <-> -2147483648 <= i <= 2147483647.
Proof. unfold int4. rewrite andb_true_iff, !Z.leb_le. done. Qed.

Lemma insert_rows_ok vals : forall table seq created,
  Forall (fun a => Asset.id a < seq) table ->
  NoDup ((Asset.tag <$> table) ++ (InsertAsset.tag <$> vals)) ->
  -2147483648 <= seq -> seq + Z.of_nat (length vals) <= 2147483648 ->
  insert_rows table seq vals created =
    inr ({| rows := table ++ assign seq vals;
            next_id := seq + Z.of_nat (length vals) |},
         created ++ assign seq vals).
Proof.
  induction vals as [|v vals IH]; intros table seq created Hlt Hnd Hlo Hhi;
    simpl.
  - by rewrite !app_nil_r, Z.add_0_r.
  - assert (Hint : int4 seq = true).
    { apply int4_iff. simpl in Hhi. lia. }
    assert (Hid : existsb (id_is seq) table = false).
    { apply existsb_id_is. intros [a [Ha Hin]]%list_elem_of_fmap.
      rewrite Forall_forall in Hlt. specialize (Hlt a Hin). lia. }
    assert (Htag : existsb (tag_is (InsertAsset.tag v)) table = false).
    { apply existsb_tag_is. intros Hin.
      apply NoDup_app in Hnd as (_ & Hdis & _).
      apply (Hdis _ Hin). rewrite fmap_cons. apply list_elem_of_here. }
    rewrite Hint, Hid, Htag. simpl. rewrite IH.
    + rewrite <- !app_assoc. simpl. do 3 f_equal. lia.
    + apply Forall_app. split.
      * eapply Forall_impl; [exact Hlt|]. simpl. intros; lia.
      * repeat constructor. simpl. lia.
    + rewrite fmap_app, <- app_assoc. simpl. by rewrite fmap_cons in Hnd.
    + lia.
    + simpl in Hhi. lia.
Qed.

Section Interchange.

Context {engine : Engine}.

Lemma mapM_bind_insert_tags vals vals' :
  mapM bind_insert vals = Some vals' ->
  InsertAsset.tag <$> vals' = InsertAsset.tag <$> vals /\
  length vals' = length vals.
Proof.
  intros H%mapM_Some_1.
  induction H as [|v v' vals vals' Hv _ [IH1 IH2]]; [done|].
  destruct (bind_insert_keeps _ _ Hv) as (_ & _ & Htag & _).
  rewrite !fmap_cons, Htag, IH1. simpl. by rewrite IH2.
Qed.

(** The answer of the import, from the result of the loop.  With no
    passing row the import fails with the errors of the rows and the store
    is as it was.  With passing rows whose tags differ from one another
    and whose values the engine takes, and a sequence that stays in the
    range of [id], the batch is appended and the answer reports the count,
    the created assets and the errors, if any. *)
Lemma import_outcome (s : Store) (data : list (gmap string JsVal)) :
  data <> [] ->
  let batch := (import_loop s 0 data [] []).1 in
  let errors := (import_loop s 0 data [] []).2 in
  (batch = [] ->
   errors <> [] /\
   import_assets s (Some data) = (s, json 400 (NoValidAssets errors))) /\
  (forall batch', batch <> [] ->
     wf s -> tags_unique s -> NoDup (InsertAsset.tag <$> batch) ->
     -2147483648 <= next_id s ->
     next_id s + Z.of_nat (length batch) <= 2147483648 ->
     mapM bind_insert batch = Some batch' ->
     let created := assign (next_id s) batch' in
     import_assets s (Some data) =
       ({| rows := rows s ++ created;
           next_id := next_id s + Z.of_nat (length batch) |},
        json 200
          (ImportSummary
             ("Successfully imported " +:+
              digits_of_nat (length created) +:+ " assets")
             (length created)
             (if (0 <? length errors)%nat then Some errors else None)
             created))).
Proof.
  intros Hdata batch errors.
  pose proof (import_loop_length s data 0) as Hlen.
  pose proof (import_loop_fresh s data 0) as Hfresh.
  fold batch in Hlen, Hfresh. fold errors in Hlen.
  unfold import_assets.
  destruct data as [|row data]; [done|].
  change (length (row :: data) =? 0)%nat with false. cbv iota.
  destruct (import_loop s 0 (row :: data) [] []) as [A E] eqn:EL.
  simpl in batch, errors. subst batch errors. split.
  - intros ->. simpl in Hlen.
    destruct E as [|e E]; [simpl in Hlen; lia|]. done.
  - intros A' HA [Hids Hseq] Htags Hnd Hlo Hhi Hbind.
    destruct (mapM_bind_insert_tags _ _ Hbind) as [Htg Hl].
    destruct A as [|v A]; [done|].
    rewrite andb_false_r. unfold createManyAssets.
    change (length (v :: A) =? 0)%nat with false. cbv iota.
    unfold db_insert. rewrite Hbind.
    rewrite (insert_rows_ok A' (rows s) (next_id s) []); [|done| |done|].
    + simpl app. by rewrite Hl.
    + rewrite Htg. apply NoDup_app. split_and!; [done| |done].
      intros t Ht Ht'. apply list_elem_of_fmap in Ht' as [w [-> Hw]].
      rewrite Forall_forall in Hfresh. by apply (Hfresh w Hw).
    + by rewrite Hl.
Qed.

End Interchange.

(** ** Export *)

Lemma truthy_JString x : x <> "" -> truthy (JString x) = true.
Proof. intros Hx. simpl. by rewrite (proj2 (String.eqb_neq _ _) Hx). Qed.

(** C8, at the request where the code departs from it:
    [GET /api/assets/export].  The route [/api/assets/:id] is registered
    before the route [/api/assets/export] and matches its path;
    [parseInt("export")] is NaN and the answer is 400 "Invalid asset ID".
    Whatever the store holds, no GET request is answered with a workbook,
    so there is no exported workbook to import. *)
Theorem export_route_shadowed (s : Store) :
  matches Param (Segment "export") = true /\
  parseInt "export" = None /\
  GET s (Segment "export") = Some (json 400 (Message "Invalid asset ID")) /\
  (forall path r sheet, GET s path = Some r -> body r <> Workbook sheet).
Proof.
  split_and!; [done | done | done |].
  intros [|name] r sheet; unfold GET; simpl.
  - by intros [= <-].
  - destruct (String.eqb name ""); simpl; [by intros [= <-]|].
    intros [= <-]. unfold get_asset.
    destruct (parseInt name) as [i|]; [|done].
    by destruct (getAsset s i) as [[a|]|s'].
Qed.

(** ** The primary key and the sequence *)

Lemma insert_rows_wf vals : forall table seq created r,
  insert_rows table seq vals created = inr r ->
  NoDup (Asset.id <$> table) -> Forall (fun a => Asset.id a < seq) table ->
  wf r.1.
Proof.
  induction vals as [|v vals IH]; intros table seq created r; simpl.
  - intros [= <-] Hnd Hlt. by split.
  - destruct (int4 seq); simpl; [|done].
    destruct (existsb (id_is seq) table || existsb _ table) eqn:E; [done|].
    apply orb_false_iff in E as [E%existsb_id_is _].
    intros H Hnd Hlt. apply (IH _ _ _ _ H).
    + rewrite fmap_app. apply NoDup_app. split_and!; [done| |].
      * intros x Hx Hx'. apply list_elem_of_singleton in Hx'. by subst.
      * apply NoDup_singleton.
    + apply Forall_app. split.
      * eapply Forall_impl; [exact Hlt|]. simpl. intros; lia.
      * repeat constructor. simpl. lia.
Qed.

(** The sequence may move ahead without a row being written. *)
Lemma wf_ahead s s' :
  wf s -> rows s' = rows s -> next_id s <= next_id s' -> wf s'.
Proof.
  intros [Hnd Hlt] Hr Hn. unfold wf. rewrite Hr. split; [done|].
  eapply Forall_impl; [exact Hlt|]. simpl. intros; lia.
Qed.

Section Sequence.

Context {engine : Engine}.

(** [wf] is an invariant of the storage class: ids stay unique and below
    the sequence under INSERT, UPDATE and DELETE, refused or not. *)
Lemma wf_invariant (s : Store) :
  wf s ->
  (forall vals s' r, db_insert s vals = Ok (s', r) -> wf s') /\
  (forall vals s', db_insert s vals = Throw s' -> wf s') /\
  (forall i p s' r, db_update s i p = Ok (s', r) -> wf s') /\
  (forall i s' r, db_delete s i = Ok (s', r) -> wf s').
Proof.
  intros Hwf. pose proof Hwf as [Hnd Hlt]. split_and!.
  - intros vals s' r. unfold db_insert.
    destruct (mapM _ vals) as [vals'|]; [|done].
    destruct (insert_rows _ _ vals' []) as [seq|[s'' r']] eqn:E; [done|].
    intros [= <- <-]. by apply (insert_rows_wf _ _ _ _ _ E).
  - intros vals s' [Hr Hn]%db_insert_Throw. by apply (wf_ahead s).
  - intros i p s' r. unfold db_update.
    destruct (bind_update p) as [p'|]; [|done]. cbv zeta.
    destruct (_ || _); [done|].
    intros [= <- <-]. split; simpl.
    + by rewrite set_where_ids.
    + apply Forall_forall. intros b Hb. rewrite Forall_forall in Hlt.
      apply set_where_elem_inv in Hb as [[Hb _] | (a & Ha & _ & ->)];
        [by apply Hlt | by apply (Hlt a)].
  - intros i s' r. unfold db_delete. cbv zeta.
    destruct (refused _ _); [done|]. intros [= <- <-]. split; simpl.
    + eapply sublist_NoDup; [exact Hnd|].
      apply fmap_sublist, sublist_filter.
    + rewrite Forall_forall in Hlt. apply Forall_forall. intros a Ha.
      apply list_elem_of_filter in Ha as [_ Ha]. by apply Hlt.
Qed.

End Sequence.

(** ** The example of the specification *)

(** Two rows that carry the tag of a persisted asset: both are rejected,
    nothing is imported and the store is as it was. *)
Example import_persisted_tag :
  let s := {| rows := [Asset.mk 1 "Old" "laptop" "LP-001" None "900.00" None];
              next_id := 2 |} in
  import_assets (engine := plain_engine) s
    (Some [ {[ "name" := JString "Dell XPS"; "type" := JString "laptop";
               "tag" := JString "LP-001"; "cost" := JString "1200.00" ]};
            {[ "name" := JString "Bad Row"; "type" := JString "monitor";
               "tag" := JString "LP-001"; "cost" := JString "300" ]} ]) =
    (s, json 400
          (NoValidAssets ["Row 2: Asset tag 'LP-001' already exists";
                          "Row 3: Asset tag 'LP-001' already exists"])).
Proof. reflexivity. Qed.

(** A mix of rows: the valid rows are imported, the row without a cost is
    reported, and a numeric cell is turned into text. *)
Example import_partial_success :
  let s := {| rows := []; next_id := 1 |} in
  import_assets (engine := plain_engine) s
    (Some [ {[ "Asset Name" := JString "Desk"; "Type" := JString "furniture";
               "asset_tag" := JString "F-1"; "Cost" := JString "80.00" ]};
            {[ "Asset Name" := JString "Lamp"; "Type" := JString "furniture";
               "asset_tag" := JString "F-2" ]};
            {[ "Name" := JString "Chair"; "Asset Type" := JString "furniture";
               "Tag" := JNumber (Dec false 77 2);
               "price" := JString "45.50";
               "serial" := JNumber (Dec false 9001 4) ]} ]) =
    ({| rows := [Asset.mk 1 "Desk" "furniture" "F-1" None "80.00" None;
                 Asset.mk 2 "Chair" "furniture" "77" (Some "9001") "45.50" None];
        next_id := 3 |},
     json 200
       (ImportSummary "Successfully imported 2 assets" 2
          (Some ["Row 3: Missing required fields (Name, Type, Tag, Cost)"])
          [Asset.mk 1 "Desk" "furniture" "F-1" None "80.00" None;
           Asset.mk 2 "Chair" "furniture" "77" (Some "9001") "45.50" None])).
Proof. reflexivity. Qed.

(** * Further properties of the routes *)

(** ** Reading and deleting *)

(** [GET /api/assets/:id]: 400 for an id that is not a number; 404 exactly
    when no asset has the id and the id lies in the range of the column
    [id]; 500 exactly when no asset has the id and the id lies outside this
    range; otherwise 200 with an asset of the store that has this id.  With
    unique ids every asset is found under its id. *)
Theorem get_asset_outcomes (s : Store) :
  get_asset s None = json 400 (Message "Invalid asset ID") /\
  (forall i, get_asset s (Some i) = json 404 (Message "Asset not found") <->
             (i ∉ Asset.id <$> rows s) /\ int4 i = true) /\
  (forall i, get_asset s (Some i) =
               json 500 (Message "Failed to fetch asset") <->
             (i ∉ Asset.id <$> rows s) /\ int4 i = false) /\
  (forall i a, get_asset s (Some i) = json 200 (AssetJson (Some a)) ->
               a ∈ rows s /\ Asset.id a = i) /\
  (forall a, NoDup (Asset.id <$> rows s) -> a ∈ rows s ->
             get_asset s (Some (Asset.id a)) = json 200 (AssetJson (Some a))).
Proof.
  split_and!; [done| | | |].
  - intros i. unfold get_asset. rewrite getAsset_cases.
    destruct (filter _ (rows s)) as [|b l] eqn:E.
    + apply filter_id_nil_inv in E.
      destruct (int4 i); split; try done; by intros [].
    + split; [done|]. intros [Hno _].
      by rewrite (filter_id_nil _ _ Hno) in E.
  - intros i. unfold get_asset. rewrite getAsset_cases.
    destruct (filter _ (rows s)) as [|b l] eqn:E.
    + apply filter_id_nil_inv in E.
      destruct (int4 i); split; try done; by intros [].
    + split; [done|]. intros [Hno _].
      by rewrite (filter_id_nil _ _ Hno) in E.
  - intros i a. unfold get_asset. rewrite getAsset_cases.
    destruct (filter _ (rows s)) as [|b l] eqn:E;
      [by destruct (int4 i)|].
    intros [= ->].
    assert (a ∈ filter (fun b => id_is i b) (rows s)) as Hin
      by (rewrite E; apply list_elem_of_here).
    apply list_elem_of_filter in Hin as [Hi%id_is_iff Hin]. done.
  - intros a Hnd Ha. unfold get_asset. rewrite getAsset_cases.
    by rewrite (filter_id_one (Asset.id a) (rows s) a).
Qed.

Lemma get_asset_outcomes_witness :
  let a := Asset.mk 1 "Desk" "furniture" "F-1" None "80.00" None in
  let b := Asset.mk 2 "Lamp" "furniture" "F-2" None "15.00" None in
  let s := {| rows := [a; b]; next_id := 3 |} in
  get_asset s (Some 2) = json 200 (AssetJson (Some b)) /\
  get_asset s (Some 7) = json 404 (Message "Asset not found") /\
  get_asset s (Some 2147483647) = json 404 (Message "Asset not found") /\
  get_asset s (Some 2147483648) = json 500 (Message "Failed to fetch asset") /\
  get_asset s (Some (-2147483648)) = json 404 (Message "Asset not found") /\
  get_asset s (Some (-2147483649)) =
    json 500 (Message "Failed to fetch asset").
Proof.
  intros a b s.
  assert (Hids : NoDup (Asset.id <$> rows s)).
  { apply NoDup_cons. split; [|apply NoDup_singleton].
    intros Hin. apply list_elem_of_singleton in Hin. discriminate. }
  assert (Hb : b ∈ rows s) by apply list_elem_of_further, list_elem_of_here.
  assert (Hno : forall i, i < 1 \/ 2 < i -> i ∉ Asset.id <$> rows s).
  { intros i Hi Hin. apply elem_of_cons in Hin as [Hin | Hin];
      [simpl in Hin; lia|].
    apply list_elem_of_singleton in Hin. simpl in Hin. lia. }
  destruct (get_asset_outcomes s) as (_ & H404 & H500 & _ & H200).
  split_and!.
  - exact (H200 b Hids Hb).
  - exact (proj2 (H404 7) (conj (Hno 7 ltac:(lia)) eq_refl)).
  - exact (proj2 (H404 2147483647)
             (conj (Hno 2147483647 ltac:(lia)) eq_refl)).
  - exact (proj2 (H500 2147483648)
             (conj (Hno 2147483648 ltac:(lia)) eq_refl)).
  - exact (proj2 (H404 (-2147483648))
             (conj (Hno (-2147483648) ltac:(lia)) eq_refl)).
  - exact (proj2 (H500 (-2147483649))
             (conj (Hno (-2147483649) ltac:(lia)) eq_refl)).
Defined.

(** [DELETE /api/assets/:id]: the answer is 200 when an asset has the id;
    when none has it, the answer is 404 for an id in the range of the
    column [id] and 500 for an id outside it, and the store is as it was.
    After the call no asset has the id, every asset with another id is
    still there, nothing else is, and the sequence has not moved. *)
Theorem delete_asset_outcomes (s : Store) (i : Z) :
  let r := delete_asset s (Some i) in
  (i ∈ Asset.id <$> rows s ->
   r.2 = json 200 (Message "Asset deleted successfully")) /\
  (i ∉ Asset.id <$> rows s -> int4 i = true ->
   r = (s, json 404 (Message "Asset not found"))) /\
  (i ∉ Asset.id <$> rows s -> int4 i = false ->
   r = (s, json 500 (Message "Failed to delete asset"))) /\
  (i ∉ Asset.id <$> rows r.1) /\
  (forall b, b ∈ rows r.1 <-> b ∈ rows s /\ Asset.id b <> i) /\
  next_id r.1 = next_id s.
Proof.
  unfold delete_asset, deleteAsset, db_delete. cbv zeta.
  assert (Hgone : i ∉ Asset.id <$>
                    filter (fun a => negb (id_is i a)) (rows s)).
  { intros [a [-> Ha]]%list_elem_of_fmap.
    apply list_elem_of_filter in Ha as [Ha _].
    apply Is_true_true, negb_true_iff in Ha. unfold id_is in Ha.
    by apply Z.eqb_neq in Ha. }
  assert (Hmem : forall b,
             b ∈ filter (fun a => negb (id_is i a)) (rows s) <->
             b ∈ rows s /\ Asset.id b <> i).
  { intros b. rewrite list_elem_of_filter.
    rewrite Is_true_true, negb_true_iff. unfold id_is.
    rewrite Z.eqb_neq. tauto. }
  destruct (filter (fun a => id_is i a) (rows s)) as [|c l] eqn:E.
  - apply filter_id_nil_inv in E.
    assert (Hall : forall b, b ∈ rows s <-> b ∈ rows s /\ Asset.id b <> i).
    { intros b. split; [|by intros []]. intros Hb. split; [done|].
      intros Hi. apply E. apply list_elem_of_fmap. by exists b. }
    simpl. destruct (int4 i); simpl;
      rewrite ?(filter_keep_all _ _ E), ?store_eta; simpl;
      split_and!; done.
  - simpl. split_and!; try done.
    + intros Hno. by rewrite (filter_id_nil _ _ Hno) in E.
    + intros Hno. by rewrite (filter_id_nil _ _ Hno) in E.
Qed.

Lemma delete_asset_outcomes_witness :
  let a := Asset.mk 1 "Desk" "furniture" "F-1" None "80.00" None in
  let b := Asset.mk 2 "Lamp" "furniture" "F-2" None "15.00" None in
  let s := {| rows := [a; b]; next_id := 3 |} in
  (delete_asset s (Some 1)).2 =
    json 200 (Message "Asset deleted successfully") /\
  delete_asset s (Some 7) = (s, json 404 (Message "Asset not found")) /\
  delete_asset s (Some 2147483648) =
    (s, json 500 (Message "Failed to delete asset")).
Proof.
  intros a b s.
  assert (Hno : forall i, 2 < i -> i ∉ Asset.id <$> rows s).
  { intros i Hi Hin. apply elem_of_cons in Hin as [Hin | Hin];
      [simpl in Hin; lia|].
    apply list_elem_of_singleton in Hin. simpl in Hin. lia. }
  split_and!.
  - apply (proj1 (delete_asset_outcomes s 1)). apply list_elem_of_here.
  - exact (proj1 (proj2 (delete_asset_outcomes s 7))
             (Hno 7 ltac:(lia)) eq_refl).
  - exact (proj1 (proj2 (proj2 (delete_asset_outcomes s 2147483648)))
             (Hno 2147483648 ltac:(lia)) eq_refl).
Defined.

(** ** Creating, then reading *)

(** What a successful INSERT leaves: the table with the new rows at its
    end, one for each value, and the sequence moved by their number. *)
Lemma insert_rows_app vals : forall table seq created r,
  insert_rows table seq vals created = inr r ->
  exists new,
    rows r.1 = table ++ new /\ r.2 = created ++ new /\
    length new = length vals /\
    next_id r.1 = seq + Z.of_nat (length vals) /\
    (InsertAsset.tag <$> vals) = (Asset.tag <$> new) /\
    Forall (fun a => seq <= Asset.id a) new.
Proof.
  induction vals as [|v vals IH]; intros table seq created r; simpl.
  - intros [= <-]. exists []. simpl. rewrite !app_nil_r, Z.add_0_r. done.
  - destruct (int4 seq); simpl; [|done].
    destruct (_ || _); [done|]. intros H.
    destruct (IH _ _ _ _ H) as (new & Hr & Hc & Hl & Hn & Ht & Hi).
    exists (new_row seq v :: new). rewrite Hr, Hc, <- !app_assoc. simpl.
    split_and!; try done.
    + by rewrite Hl.
    + rewrite Hn. lia.
    + f_equal. exact Ht.
    + constructor; [simpl; lia|].
      eapply Forall_impl; [exact Hi|]. simpl. intros; lia.
Qed.

Section Reading.

Context {engine : Engine}.

Lemma post_asset_created s req_body s' a :
  post_asset s req_body = (s', json 201 (AssetJson (Some a))) ->
  exists v, insertAssetSchema req_body = inr v /\
    Asset.tag a = InsertAsset.tag v /\
    Asset.id a = next_id s /\
    (next_id s ∉ Asset.id <$> rows s) /\
    rows s' = rows s ++ [a] /\ next_id s' = next_id s + 1.
Proof.
  unfold post_asset.
  destruct (insertAssetSchema req_body) as [e|v]; [done|].
  destruct (getAssetByTag s _) as [[b|]|s'']; [done| |done].
  unfold createAsset, db_insert. simpl.
  destruct (bind_insert v) as [v'|] eqn:Hbind; simpl; [|done].
  destruct (int4 (next_id s)); simpl; [|done].
  destruct (existsb (id_is (next_id s)) (rows s)) eqn:Eid; simpl; [done|].
  destruct (existsb (tag_is (InsertAsset.tag v')) (rows s)); simpl; [done|].
  intros [= <- <-]. exists v.
  destruct (bind_insert_keeps _ _ Hbind) as (_ & _ & Htag & _).
  split_and!; try done. by apply existsb_id_is.
Qed.

(** After [POST /api/assets] has answered 201 with an asset, the asset is
    the last row of the table, its id is the value the sequence stood at,
    [GET /api/assets/:id] returns it under this id, and the same request
    sent again answers 409 and changes nothing. *)
Theorem create_then_read (s s' : Store) (req_body : gmap string JsVal)
    (a : Asset.t) :
  post_asset s req_body = (s', json 201 (AssetJson (Some a))) ->
  get_assets s' = json 200 (AssetsJson (rows s ++ [a])) /\
  Asset.id a = next_id s /\
  get_asset s' (Some (Asset.id a)) = json 200 (AssetJson (Some a)) /\
  post_asset s' req_body =
    (s', json 409 (Message "Asset tag already exists")).
Proof.
  intros H.
  destruct (post_asset_created _ _ _ _ H)
    as (v & Hv & Htag & Hid & Hfresh & Hrows & Hseq).
  split_and!.
  - unfold get_assets, getAllAssets. by rewrite Hrows.
  - done.
  - unfold get_asset. rewrite getAsset_cases, Hrows, filter_app.
    rewrite (filter_id_nil _ (rows s)) by by rewrite Hid.
    rewrite filter_cons, decide_True by by apply id_is_iff. done.
  - unfold post_asset. rewrite Hv.
    assert (Hin : InsertAsset.tag v ∈ Asset.tag <$> rows s').
    { rewrite Hrows, fmap_app, <- Htag. apply elem_of_app. right.
      apply list_elem_of_here. }
    by destruct (getAssetByTag_held _ _ Hin) as (b & -> & _).
Qed.

(** Ids are not handed out twice: in a store whose sequence is ahead of its
    ids, an asset created after any asset was deleted gets an id that no
    asset of the store had, the deleted one included. *)
Theorem deleted_id_not_reused (s s' : Store) (i : Z)
    (req_body : gmap string JsVal) (b : Asset.t) :
  wf s ->
  post_asset (delete_asset s (Some i)).1 req_body =
    (s', json 201 (AssetJson (Some b))) ->
  Asset.id b ∉ Asset.id <$> rows s.
Proof.
  intros Hwf H.
  destruct (post_asset_created _ _ _ _ H) as (_ & _ & _ & Hid & _).
  rewrite Hid.
  replace (next_id (delete_asset s (Some i)).1) with (next_id s).
  - by apply wf_fresh_id.
  - unfold delete_asset, deleteAsset, db_delete. cbv zeta.
    destruct (refused _ _); [done|]. by destruct (0 <? _)%nat.
Qed.

(** The primary key and the sequence under the routes: from a store with
    unique ids that the sequence is ahead of, every route leaves such a
    store. *)
Theorem wf_routes (s : Store) :
  wf s ->
  (forall req_body, wf (post_asset s req_body).1) /\
  (forall id req_body, wf (put_asset s id req_body).1) /\
  (forall id, wf (delete_asset s id).1) /\
  (forall file, wf (import_assets s file).1).
Proof.
  intros Hwf.
  destruct (wf_invariant s Hwf) as (Hins & Hthrow & Hupd & Hdel).
  split_and!.
  - intros req_body. unfold post_asset.
    destruct (insertAssetSchema req_body) as [e|v]; [done|].
    destruct (getAssetByTag s _) as [[a|]|s'] eqn:G; [done| |].
    + unfold createAsset.
      destruct (db_insert s [v]) as [[s' r]|s'] eqn:E.
      * by apply (Hins _ _ _ E).
      * by apply (Hthrow _ _ E).
    + by apply getAssetByTag_Throw in G as (-> & _).
  - intros [i|] req_body; [|done]. unfold put_asset.
    destruct (insertAssetSchema_partial req_body) as [e|p]; [done|].
    match goal with
    | |- context [match ?c with Ok _ => _ | Throw _ => _ end] =>
        destruct c as [existing|s'] eqn:G
    end.
    + match goal with |- context [if ?c then _ else _] => destruct c end;
        [done|].
      unfold updateAsset.
      destruct (db_update s i p) as [[s' r]|s'] eqn:E.
      * destruct (head r); by apply (Hupd _ _ _ _ E).
      * by apply db_update_Throw in E as ->.
    + destruct (tag_given p); [|done].
      by apply getAssetByTag_Throw in G as (-> & _).
  - intros [i|]; [|done]. unfold delete_asset, deleteAsset.
    destruct (db_delete s i) as [[s' result]|s'] eqn:E.
    + apply Hdel in E. by destruct (0 <? length result)%nat.
    + by apply db_delete_Throw in E as ->.
  - intros [data|]; [|done]. unfold import_assets.
    destruct (length data =? 0)%nat; [done|].
    destruct (import_loop s 0 data [] []) as [A E].
    destruct (_ && _); [done|].
    unfold createManyAssets.
    destruct (length A =? 0)%nat; [done|].
    destruct (db_insert s A) as [[s' r]|s'] eqn:EA.
    + by apply (Hins _ _ _ EA).
    + by apply (Hthrow _ _ EA).
Qed.

End Reading.

Lemma create_then_read_witness :
  let s := {| rows := [Asset.mk 1 "Desk" "furniture" "F-1" None "80.00" None];
              next_id := 2 |} in
  let req_body : gmap string JsVal :=
    {[ "name" := JString "Lamp"; "type" := JString "furniture";
       "tag" := JString "F-2"; "cost" := JString "15.00" ]} in
  let a := Asset.mk 2 "Lamp" "furniture" "F-2" None "15.00" None in
  let s' := {| rows := rows s ++ [a]; next_id := 3 |} in
  get_asset s' (Some 2) = json 200 (AssetJson (Some a)) /\
  post_asset (engine := plain_engine) s' req_body =
    (s', json 409 (Message "Asset tag already exists")).
Proof.
  intros s req_body a s'.
  pose proof (create_then_read (engine := plain_engine) s s' req_body a
                eq_refl) as (_ & _ & Hget & Hpost).
  split; [exact Hget | exact Hpost].
Defined.

Lemma deleted_id_not_reused_witness :
  let a := Asset.mk 1 "Desk" "furniture" "F-1" None "80.00" None in
  let s := {| rows := [a]; next_id := 2 |} in
  let req_body : gmap string JsVal :=
    {[ "name" := JString "Lamp"; "type" := JString "furniture";
       "tag" := JString "F-2"; "cost" := JString "15.00" ]} in
  let b := Asset.mk 2 "Lamp" "furniture" "F-2" None "15.00" None in
  Asset.id b ∉ Asset.id <$> rows s.
Proof.
  intros a s req_body b.
  assert (Hwf : wf s).
  { split; [apply NoDup_singleton | repeat constructor]. }
  exact (deleted_id_not_reused (engine := plain_engine) s
           {| rows := [b]; next_id := 3 |} 1 req_body b Hwf eq_refl).
Defined.

Lemma wf_routes_witness :
  let s := {| rows := [Asset.mk 1 "Desk" "furniture" "F-1" None "80.00" None];
              next_id := 2 |} in
  wf (delete_asset s (Some 1)).1.
Proof.
  intros s.
  assert (Hwf : wf s).
  { split; [apply NoDup_singleton | repeat constructor]. }
  exact (proj1 (proj2 (proj2 (wf_routes (engine := plain_engine) s Hwf)))
           (Some 1)).
Defined.

(** ** The partial schema and the update route *)

Lemma z_optional_string_rule k v :
  match z_optional z_string k v with
  | inr r => is_optional_string v = true /\ r = optional_of v
  | inl e => is_optional_string v = false /\ map path e = [k]
  end.
Proof. by destruct v. Qed.

Lemma z_string_nullish_value k v :
  match z_string_nullish k v with
  | inr r => is_nullish_string v = true /\ r = nullish_of v
  | inl e => is_nullish_string v = false /\ map path e = [k]
  end.
Proof. by destruct v. Qed.

Lemma partial_schema_cases (o : gmap string JsVal) :
  match insertAssetSchema_partial o with
  | inr p =>
      broken partial_rules o = [] /\
      p = PartialAsset.mk (optional_of (prop o "name"))
            (optional_of (prop o "type")) (optional_of (prop o "tag"))
            (nullish_of (prop o "serialNumber"))
            (optional_of (prop o "cost"))
            (nullish_of (prop o "acquisitionDate"))
  | inl errors =>
      errors <> [] /\ map path errors = broken partial_rules o
  end.
Proof.
  unfold insertAssetSchema_partial.
  pose proof (z_optional_string_rule "name" (prop o "name")) as H1.
  pose proof (z_optional_string_rule "type" (prop o "type")) as H2.
  pose proof (z_optional_string_rule "tag" (prop o "tag")) as H3.
  pose proof (z_string_nullish_value "serialNumber"
                (prop o "serialNumber")) as H4.
  pose proof (z_optional_string_rule "cost" (prop o "cost")) as H5.
  pose proof (z_string_nullish_value "acquisitionDate"
                (prop o "acquisitionDate")) as H6.
  destruct (z_optional z_string "name" _), (z_optional z_string "type" _),
    (z_optional z_string "tag" _), (z_string_nullish "serialNumber" _),
    (z_optional z_string "cost" _), (z_string_nullish "acquisitionDate" _);
    destruct H1 as [E1 P1], H2 as [E2 P2], H3 as [E3 P3], H4 as [E4 P4],
      H5 as [E5 P5], H6 as [E6 P6];
    simpl; rewrite ?E1, ?E2, ?E3, ?E4, ?E5, ?E6; simpl;
    rewrite ?map_app, ?P1, ?P2, ?P3, ?P4, ?P5, ?P6; simpl;
    (split; [try done; intros Hnil; apply (f_equal (map path)) in Hnil;
             rewrite ?map_app in Hnil; simpl in Hnil;
             rewrite ?P1, ?P2, ?P3, ?P4, ?P5, ?P6 in Hnil; discriminate
            | done]).
Qed.

(** [insertAssetSchema.partial()] accepts an object exactly when each of
    [name], [type], [tag] and [cost] is left out or a string and each of
    [serialNumber] and [acquisitionDate] is left out, null or a string; the
    patch it returns has, for each of the six keys, the value that is given
    (a string, or null for the two nullable keys) and no value for a key
    that is left out.  An object that breaks a rule is rejected with one
    error for each key that breaks its rule and no other error. *)
Theorem partial_schema_rules (o : gmap string JsVal) :
  match insertAssetSchema_partial o with
  | inr p =>
      broken partial_rules o = [] /\
      PartialAsset.name p = optional_of (prop o "name") /\
      PartialAsset.type p = optional_of (prop o "type") /\
      PartialAsset.tag p = optional_of (prop o "tag") /\
      PartialAsset.serialNumber p = nullish_of (prop o "serialNumber") /\
      PartialAsset.cost p = optional_of (prop o "cost") /\
      PartialAsset.acquisitionDate p = nullish_of (prop o "acquisitionDate")
  | inl errors =>
      errors <> [] /\ map path errors = broken partial_rules o
  end.
Proof.
  pose proof (partial_schema_cases o) as H.
  destruct (insertAssetSchema_partial o) as [errors|p]; [done|].
  destruct H as [H ->]. done.
Qed.

Section Updating.

Context {engine : Engine}.

(** [PUT /api/assets/:id] answers 400 without touching the store when the
    id is not a number, and when the body breaks a rule of the partial
    schema, with an error for each key that breaks its rule. *)
Theorem put_asset_rejects (s : Store) (req_body : gmap string JsVal) :
  put_asset s None req_body = (s, json 400 (Message "Invalid asset ID")) /\
  (forall i, broken partial_rules req_body <> [] ->
     exists errors,
       put_asset s (Some i) req_body = (s, json 400 (ValidationError errors)) /\
       map path errors = broken partial_rules req_body).
Proof.
  split; [done|]. intros i Hbroken. unfold put_asset.
  pose proof (partial_schema_cases req_body) as H.
  destruct (insertAssetSchema_partial req_body) as [errors|p].
  - exists errors. by destruct H.
  - by destruct H.
Qed.

(** A body with none of the six keys passes the schema, but there is
    nothing to set: [PUT /api/assets/:id] answers 500 and leaves the store as
    it is, whether or not an asset has the id. *)
Theorem put_asset_nothing_to_set (s : Store) (i : Z)
    (req_body : gmap string JsVal) :
  Forall (fun k => prop req_body k = JUndefined)
    ["name"; "type"; "tag"; "serialNumber"; "cost"; "acquisitionDate"] ->
  put_asset s (Some i) req_body =
    (s, json 500 (Message "Failed to update asset")).
Proof.
  intros H.
  inversion H as [|? ? H1 H']; subst. inversion H' as [|? ? H2 H'']; subst.
  inversion H'' as [|? ? H3 H3']; subst. inversion H3' as [|? ? H4 H4']; subst.
  inversion H4' as [|? ? H5 H5']; subst. inversion H5' as [|? ? H6 _]; subst.
  unfold put_asset, insertAssetSchema_partial.
  rewrite H1, H2, H3, H4, H5, H6. reflexivity.
Qed.

End Updating.

Lemma put_asset_rejects_witness :
  let s := {| rows := [Asset.mk 1 "Desk" "furniture" "F-1" None "80.00" None];
              next_id := 2 |} in
  let req_body : gmap string JsVal :=
    {[ "cost" := JNumber (Dec false 15 2); "name" := JNull ]} in
  exists errors,
    put_asset (engine := plain_engine) s (Some 1) req_body =
      (s, json 400 (ValidationError errors)) /\
    map path errors = ["name"; "cost"].
Proof.
  intros s req_body.
  apply (proj2 (put_asset_rejects (engine := plain_engine) s req_body) 1).
  discriminate.
Defined.

Lemma put_asset_nothing_to_set_witness :
  let s := {| rows := [Asset.mk 1 "Desk" "furniture" "F-1" None "80.00" None];
              next_id := 2 |} in
  put_asset (engine := plain_engine) s (Some 1) {[ "id" := JString "5" ]} =
    (s, json 500 (Message "Failed to update asset")).
Proof.
  intros s.
  apply (put_asset_nothing_to_set (engine := plain_engine) s 1).
  repeat constructor.
Defined.

(** ** Import: the other outcomes of a row *)



(** The loop reports three kinds of errors only: missing required fields,
    a tag that a persisted asset holds, and "Invalid data format", which
    is the answer to a refused lookup of the tag (a tag that holds code
    point 0).  No row is rejected by the schema, whatever its cells hold:
    a row that is not answered with one of the three errors is queued. *)
Theorem import_error_kinds (s : Store) (data : list (gmap string JsVal)) :
  (forall i,
     Forall (fun e => exists n,
               e = "Row " +:+ digits_of_nat n +:+
                   ": Missing required fields (Name, Type, Tag, Cost)" \/
               (exists tag,
                  e = "Row " +:+ digits_of_nat n +:+ ": Asset tag '" +:+
                      String_ tag +:+ "' already exists") \/
               e = "Row " +:+ digits_of_nat n +:+ ": Invalid data format")
       (import_loop s i data [] []).2) /\
  (forall n row,
     match import_row s n row with
     | inl e =>
         e = "Row " +:+ digits_of_nat n +:+
             ": Missing required fields (Name, Type, Tag, Cost)" \/
         (e = "Row " +:+ digits_of_nat n +:+ ": Asset tag '" +:+
              String_ (row_tag row) +:+ "' already exists" /\
          String_ (row_tag row) ∈ Asset.tag <$> rows s) \/
         (e = "Row " +:+ digits_of_nat n +:+ ": Invalid data format" /\
          (String_ (row_tag row) ∉ Asset.tag <$> rows s) /\
          text_ok (String_ (row_tag row)) = false)
     | inr v =>
         (String_ (row_tag row) ∉ Asset.tag <$> rows s) /\
         text_ok (String_ (row_tag row)) = true
     end).
Proof.
  split.
  - induction data as [|row data IH]; intros i; simpl; [constructor|].
    destruct (import_row s (i + 2) row) as [e|v] eqn:E;
      rewrite import_loop_acc; simpl; [|apply IH].
    constructor; [|apply IH]. exists (i + 2)%nat.
    rewrite import_row_cases in E.
    destruct (_ || _); [left; injection E as <-; reflexivity|].
    destruct (existsb _ (rows s)).
    + right; left. exists (row_tag row). injection E as <-. reflexivity.
    + destruct (text_ok _); [done|]. right; right.
      injection E as <-. reflexivity.
  - intros n row. rewrite import_row_cases.
    destruct (_ || _); [by left|].
    destruct (existsb _ (rows s)) eqn:E.
    + right; left. split; [done|].
      destruct (decide (String_ (row_tag row) ∈ Asset.tag <$> rows s))
        as [Hin|Hno]; [done|].
      apply existsb_tag_is in Hno. congruence.
    + apply existsb_tag_is in E.
      destruct (text_ok _) eqn:Hok; [done|]. right; right. done.
Qed.

(** A row with a name, a type, any cost cell and a tag that no persisted
    asset holds is queued with the text of its six cells: the cost is not
    checked, and a serial number or a date whose cell is absent or falsy is
    left out.  When the tag holds code point 0 the lookup of the tag is
    refused, and the row is answered "Row n: Invalid data format"
    instead. *)
Theorem import_row_queued (s : Store) (n : nat) (row : gmap string JsVal) :
  truthy (row_name row) = true -> truthy (row_type row) = true ->
  truthy (row_tag row) = true -> row_cost row <> JUndefined ->
  String_ (row_tag row) ∉ Asset.tag <$> rows s ->
  import_row s n row =
    if text_ok (String_ (row_tag row)) then
      inr (InsertAsset.mk (String_ (row_name row)) (String_ (row_type row))
             (String_ (row_tag row))
             (if truthy (row_serialNumber row)
              then Some (Some (String_ (row_serialNumber row))) else None)
             (String_ (row_cost row))
             (if truthy (row_acquisitionDate row)
              then Some (Some (String_ (row_acquisitionDate row)))
              else None))
    else inl ("Row " +:+ digits_of_nat n +:+ ": Invalid data format").
Proof.
  intros Hn Hty Htg Hc Hfresh.
  rewrite import_row_cases, Hn, Hty, Htg.
  rewrite (proj2 (existsb_tag_is _ _) Hfresh). simpl.
  by destruct (row_cost row).
Qed.

Lemma import_row_queued_witness :
  let row : gmap string JsVal :=
    {[ "Asset Name" := JString "Desk"; "Asset Type" := JString "furniture";
       "Asset Tag" := JString "F-1"; "Cost" := JString "a lot";
       "serial" := JNumber (Dec false 9001 4);
       "Acquisition Date" := JString "" ]} in
  let nul : gmap string JsVal :=
    <[ "Asset Tag" := JString (String Ascii.zero "F-1") ]> row in
  import_row {| rows := []; next_id := 1 |} 2 row =
    inr (InsertAsset.mk "Desk" "furniture" "F-1" (Some (Some "9001")) "a lot"
           None) /\
  import_row {| rows := []; next_id := 1 |} 3 nul =
    inl "Row 3: Invalid data format".
Proof.
  intros row nul. split.
  - apply (import_row_queued {| rows := []; next_id := 1 |} 2 row);
      try reflexivity; [discriminate | apply not_elem_of_nil].
  - apply (import_row_queued {| rows := []; next_id := 1 |} 3 nul);
      try reflexivity; [discriminate | apply not_elem_of_nil].
Defined.

Section Importing.

Context {engine : Engine}.

Lemma db_insert_app s vals s' created :
  db_insert s vals = Ok (s', created) ->
  rows s' = rows s ++ created /\ length created = length vals /\
  next_id s' = next_id s + Z.of_nat (length vals) /\
  (exists vals', mapM bind_insert vals = Some vals' /\
     InsertAsset.tag <$> vals' = Asset.tag <$> created).
Proof.
  unfold db_insert.
  destruct (mapM bind_insert vals) as [vals'|] eqn:Hbind; [|done].
  destruct (insert_rows _ _ vals' []) as [seq|r] eqn:E; [done|].
  intros [= ->].
  destruct (insert_rows_app _ _ _ _ _ E) as (new & Hr & Hc & Hl & Hn & Ht & _).
  simpl in *. subst created.
  destruct (mapM_bind_insert_tags _ _ Hbind) as [_ Hlen].
  split_and!; try done; try congruence.
  by exists vals'.
Qed.

(** The import only appends.  Whatever the file, the persisted assets are
    the first rows of the table afterwards, unchanged and in their order,
    and the rows added carry tags that no persisted asset held.  Unless the
    answer is 200 no row is added; the sequence never moves back (a refused
    batch has spent the values it drew); and when the answer is 400 the
    store is exactly as it was. *)
Theorem import_appends (s : Store)
    (file : option (list (gmap string JsVal))) :
  let r := import_assets s file in
  exists created,
    rows r.1 = rows s ++ created /\
    Forall (fun a => Asset.tag a ∉ Asset.tag <$> rows s) created /\
    next_id s <= next_id r.1 /\
    (status r.2 <> 200 -> created = []) /\
    (status r.2 = 400 -> r.1 = s).
Proof.
  assert (Hsame : forall b : Body, forall code : Z, code <> 200 ->
            exists created : list Asset.t,
              rows (s, json code b).1 = rows s ++ created /\
              Forall (fun a => Asset.tag a ∉ Asset.tag <$> rows s) created /\
              next_id s <= next_id (s, json code b).1 /\
              (status (s, json code b).2 <> 200 -> created = []) /\
              (status (s, json code b).2 = 400 -> (s, json code b).1 = s)).
  { intros b code Hc. exists []. simpl. rewrite app_nil_r.
    split_and!; (done || lia). }
  destruct file as [data|]; [|by apply Hsame].
  unfold import_assets.
  destruct (length data =? 0)%nat; [by apply Hsame|].
  pose proof (import_loop_fresh s data 0) as Hfresh.
  destruct (import_loop s 0 data [] []) as [A E]. simpl in Hfresh.
  destruct (_ && _); [by apply Hsame|].
  unfold createManyAssets.
  destruct (length A =? 0)%nat.
  { exists []. simpl. rewrite app_nil_r. split_and!; (done || lia). }
  destruct (db_insert s A) as [[s' created]|s'] eqn:EA.
  - destruct (db_insert_app _ _ _ _ EA)
      as (Hr & _ & Hseq & vals' & Hbind & Ht).
    exists created. simpl. split_and!; [done| |lia|done|done].
    destruct (mapM_bind_insert_tags _ _ Hbind) as [Htags _].
    rewrite Htags in Ht.
    apply Forall_forall. intros a Ha Hin.
    assert (Asset.tag a ∈ InsertAsset.tag <$> A) as Hta
      by (rewrite Ht; apply list_elem_of_fmap; by exists a).
    apply list_elem_of_fmap in Hta as (v & Hv & HvA).
    rewrite Forall_forall in Hfresh. apply (Hfresh v HvA). by rewrite <- Hv.
  - apply db_insert_Throw in EA as [Hr Hseq].
    exists []. simpl. rewrite app_nil_r. split_and!; done.
Qed.

(** Every row of the file is accounted for.  When the import answers 200,
    the count it reports is the number of assets it returns, and this
    count plus the number of errors is the number of rows; the list of
    errors is left out exactly when there is none.  When it answers that no
    valid asset was found, there is one error for each row. *)
Theorem import_accounts_for_rows (s : Store)
    (data : list (gmap string JsVal)) :
  match body (import_assets s (Some data)).2 with
  | ImportSummary _ imported errors assets =>
      imported = length assets /\
      (imported + length (default [] errors) = length data)%nat /\
      errors <> Some []
  | NoValidAssets errors => length errors = length data /\ data <> []
  | Message _ => True
  | _ => False
  end.
Proof.
  unfold import_assets.
  destruct (length data =? 0)%nat eqn:Edata; [done|].
  pose proof (import_loop_length s data 0) as Hlen.
  destruct (import_loop s 0 data [] []) as [A E]. simpl in Hlen.
  destruct ((0 <? length E)%nat && (length A =? 0)%nat) eqn:Ec.
  - simpl. apply andb_true_iff in Ec as [_ HA%Nat.eqb_eq].
    split; [lia|]. by destruct data.
  - unfold createManyAssets.
    destruct (length A =? 0)%nat eqn:EA.
    + simpl. rewrite andb_true_r in Ec. rewrite Ec. simpl.
      apply Nat.eqb_eq in EA. apply Nat.ltb_ge in Ec.
      split_and!; [done | lia | done].
    + destruct (db_insert s A) as [[s' created]|s'] eqn:Ei; [|done].
      destruct (db_insert_app _ _ _ _ Ei) as (_ & Hl & _).
      simpl. split_and!; [done| |].
      * destruct (0 <? length E)%nat eqn:E0; simpl; [lia|].
        apply Nat.ltb_ge in E0. lia.
      * destruct (0 <? length E)%nat eqn:E0; [|done].
        apply Nat.ltb_lt in E0. intros [= ->]. simpl in E0. lia.
Qed.

(** The cost is checked by the engine only: when the loop has queued an
    asset whose cost the engine refuses, the import answers 500 and nothing
    is inserted, the valid rows of the file included. *)
Theorem import_refused_cost (s : Store) (data : list (gmap string JsVal))
    (v : InsertAsset.t) :
  v ∈ (import_loop s 0 data [] []).1 ->
  numeric_in (InsertAsset.cost v) = None ->
  import_assets s (Some data) =
    (s, json 500 (Message "Failed to import assets from Excel file")).
Proof.
  intros Hv Hcost. unfold import_assets.
  destruct (length data =? 0)%nat eqn:Edata.
  { destruct data; [|done]. by apply elem_of_nil in Hv. }
  destruct (import_loop s 0 data [] []) as [A E]. simpl in Hv.
  destruct A as [|w A]; [by apply elem_of_nil in Hv|].
  rewrite andb_false_r. unfold createManyAssets.
  change (length (w :: A) =? 0)%nat with false. cbv iota.
  unfold db_insert.
  destruct (mapM bind_insert (w :: A)) as [vals'|] eqn:Hbind; [|done].
  exfalso. apply mapM_Some_1 in Hbind.
  apply list_elem_of_lookup in Hv as [k Hk].
  destruct (Forall2_lookup_l _ _ _ _ _ Hbind Hk) as (v' & _ & Hv').
  apply bind_insert_Some in Hv' as (_ & _ & _ & _ & Hc & _).
  unfold numeric_column in Hc. rewrite Hcost in Hc.
  by destruct (text_ok _).
Qed.

End Importing.

Lemma import_refused_cost_witness :
  let row : gmap string JsVal :=
    {[ "Asset Name" := JString "Desk"; "Asset Type" := JString "furniture";
       "Asset Tag" := JString "F-1"; "Cost" := JString "a lot" ]} in
  let good : gmap string JsVal :=
    {[ "Asset Name" := JString "Lamp"; "Asset Type" := JString "furniture";
       "Asset Tag" := JString "F-2"; "Cost" := JString "15.00" ]} in
  let s := {| rows := []; next_id := 1 |} in
  import_assets (engine := plain_engine) s (Some [good; row]) =
    (s, json 500 (Message "Failed to import assets from Excel file")).
Proof.
  intros row good s.
  apply (import_refused_cost (engine := plain_engine) s [good; row]
           (InsertAsset.mk "Desk" "furniture" "F-1" None "a lot" None)).
  - apply list_elem_of_further, list_elem_of_here.
  - reflexivity.
Defined.

(** ** Export: the sheet *)

(** The header texts of the exported sheet. *)
Lemma export_row_cells (a : Asset.t) :
  export_row a !! "Asset Name" = Some (JString (Asset.name a)) /\
  export_row a !! "Asset Type" = Some (JString (Asset.type a)) /\
  export_row a !! "Asset Tag" = Some (JString (Asset.tag a)) /\
  export_row a !! "Serial Number" =
    Some (JString (default "" (Asset.serialNumber a))) /\
  export_row a !! "Cost" = Some (JString (Asset.cost a)) /\
  export_row a !! "Acquisition Date" =
    Some (JString (default "" (Asset.acquisitionDate a))).
Proof.
  split_and!; try reflexivity.
  - destruct a as [i n ty tg [sn|] c d]; [|reflexivity].
    change (Some (js_or (JString sn) (JString "")) =
            Some (JString sn)).
    unfold js_or. simpl. destruct (String.eqb_spec sn ""); by subst.
  - destruct a as [i n ty tg sn c [d|]]; [|reflexivity].
    change (Some (js_or (JString d) (JString "")) = Some (JString d)).
    unfold js_or. simpl. destruct (String.eqb_spec d ""); by subst.
Qed.

(** What the sheet keeps of an asset: every field but the id, where a
    serial number or a date that is NULL and one that is the empty string
    are written alike.  Two assets give the same row exactly when they agree
    on this. *)
Theorem export_row_determines (a b : Asset.t) :
  export_row a = export_row b <->
  Asset.name a = Asset.name b /\ Asset.type a = Asset.type b /\
  Asset.tag a = Asset.tag b /\ Asset.cost a = Asset.cost b /\
  default "" (Asset.serialNumber a) = default "" (Asset.serialNumber b) /\
  default "" (Asset.acquisitionDate a) = default "" (Asset.acquisitionDate b).
Proof.
  destruct (export_row_cells a) as (Ha1 & Ha2 & Ha3 & Ha4 & Ha5 & Ha6).
  destruct (export_row_cells b) as (Hb1 & Hb2 & Hb3 & Hb4 & Hb5 & Hb6).
  split.
  - intros H. rewrite H in Ha1, Ha2, Ha3, Ha4, Ha5, Ha6.
    split_and!; congruence.
  - intros (H1 & H2 & H3 & H4 & H5 & H6).
    assert (Hopt : forall o : option string,
               js_or (of_nullable o) (JString "") = JString (default "" o)).
    { intros [x|]; [|done]. unfold js_or. simpl.
      destruct (String.eqb_spec x ""); by subst. }
    unfold export_row. by rewrite !Hopt, H1, H2, H3, H4, H5, H6.
Qed.

(** * The client *)

(** ** The upload *)

Lemma array_includes_In l x : array_includes l x = true <-> x ∈ l.
Proof.
  unfold array_includes. rewrite existsb_exists. split.
  - intros (y & Hy & ->%String.eqb_eq). by apply list_elem_of_In.
  - intros Hx. exists x. split; [by apply list_elem_of_In|].
    apply String.eqb_refl.
Qed.

(** The browser and the route apply the same list of types, but not the
    same size test.  [handleFileSelect] sends a file exactly when
    [fileFilter] accepts its type and its size is at most [limits.fileSize];
    [upload.single] takes a file exactly when [fileFilter] accepts its type
    and its size is below [limits.fileSize].  So every file that the route
    takes is one that the browser sends, and the files that the browser
    sends and the route refuses are the files of an accepted type that
    have exactly [limits.fileSize] bytes, 10485760.  In the browser a file
    of another type is answered with the type error and a file of an
    accepted type that is too large with the size error; of several dropped
    files only the first is looked at. *)
Theorem upload_filters_agree (f : File) (others : list File) :
  (handleFileSelect (Some f) = Mutate f <->
   fileFilter f = None /\ (file_size f <= 10485760)%N) /\
  (multer_takes f = true <->
   fileFilter f = None /\ (file_size f < 10485760)%N) /\
  (handleFileSelect (Some f) = Mutate f /\ multer_takes f = false <->
   fileFilter f = None /\ file_size f = 10485760%N) /\
  (fileFilter f <> None <->
   handleFileSelect (Some f) =
     ErrorToast "Invalid file type. Only .xlsx and .xls files are allowed.") /\
  (fileFilter f = None /\ (10485760 < file_size f)%N <->
   handleFileSelect (Some f) =
     ErrorToast "File too large. Maximum size is 10MB.") /\
  handleDrop (f :: others) = handleFileSelect (Some f) /\
  handleDrop [] = Ignored.
Proof.
  split_and!; [| | | | | reflexivity | reflexivity];
    unfold handleFileSelect, multer_takes, fileFilter, fileSize;
    change (array_includes server_allowedTypes (file_type f))
      with (array_includes client_allowedTypes (file_type f));
    change (10 * 1024 * 1024)%N with 10485760%N;
    destruct (array_includes client_allowedTypes (file_type f)); simpl;
    destruct (N.ltb_spec 10485760 (file_size f)) as [Hlt|Hle];
    try destruct (N.ltb_spec (file_size f) 10485760) as [Hlt'|Hle'];
    split; try done; try (intros []; done); try (intros []; lia);
    try (intros _; split; [done | lia]).
Qed.

(** ** Search and type filter *)

Lemma append_String c s w : String c s +:+ w = String c (s +:+ w).
Proof. reflexivity. Qed.

Lemma append_empty w : "" +:+ w = w.
Proof. reflexivity. Qed.

Lemma prefix_spec t : forall s,
  String.prefix t s = true <-> exists w, s = t +:+ w.
Proof.
  induction t as [|c t IH]; intros s.
  - split; [intros _; by exists s | intros _; by destruct s].
  - destruct s as [|d s]; simpl.
    + split; [done | by intros [w Hw]].
    + destruct (Ascii.ascii_dec c d) as [->|Hne].
      * rewrite IH. split; intros [w Hw]; exists w;
          rewrite append_String in *; congruence.
      * split; [done|]. intros [w Hw]. rewrite append_String in Hw.
        congruence.
Qed.

Lemma includes_cons c s t :
  includes (String c s) t = String.prefix t (String c s) || includes s t.
Proof. reflexivity. Qed.

Lemma includes_empty t : includes "" t = String.prefix t "" || false.
Proof. reflexivity. Qed.

(** [includes] is the search for a substring. *)
Lemma includes_spec s : forall t,
  includes s t = true <-> exists u w, s = u +:+ t +:+ w.
Proof.
  induction s as [|c s IH]; intros t.
  - rewrite includes_empty, orb_false_r, prefix_spec. split.
    + intros [w Hw]. by exists "", w.
    + intros (u & w & H). destruct u; [by exists w|done].
  - rewrite includes_cons, orb_true_iff, prefix_spec, IH. split.
    + intros [[w Hw] | (u & w & H)].
      * by exists "", w.
      * exists (String c u), w. rewrite append_String. by rewrite H.
    + intros (u & w & H). destruct u as [|d u].
      * left. by exists w.
      * right. exists u, w. rewrite append_String in H. congruence.
Qed.

Lemma lower_char_idemp c : lower_char (lower_char c) = lower_char c.
Proof. destruct c as [[] [] [] [] [] [] [] []]; reflexivity. Qed.

Lemma toLowerCase_idemp s : toLowerCase (toLowerCase s) = toLowerCase s.
Proof.
  induction s as [|c s IH]; simpl; [done|].
  by rewrite lower_char_idemp, IH.
Qed.

(** The assets shown are those of the list, in their order, whose name or
    tag contains the search term, letter case apart, and whose type is the
    chosen one when a type is chosen.  With no term and no type the whole
    list is shown; the case of the term does not matter; filtering what is
    shown again changes nothing. *)
Theorem filteredAssets_spec (searchTerm filterType : string)
    (assets : list Asset.t) :
  filteredAssets searchTerm filterType assets `sublist_of` assets /\
  (forall a, a ∈ filteredAssets searchTerm filterType assets <->
     a ∈ assets /\
     ((exists u w, toLowerCase (Asset.name a) =
                     u +:+ toLowerCase searchTerm +:+ w) \/
      (exists u w, toLowerCase (Asset.tag a) =
                     u +:+ toLowerCase searchTerm +:+ w)) /\
     (filterType = "all" \/ Asset.type a = filterType)) /\
  filteredAssets "" "all" assets = assets /\
  filteredAssets (toLowerCase searchTerm) filterType assets =
    filteredAssets searchTerm filterType assets /\
  filteredAssets searchTerm filterType
    (filteredAssets searchTerm filterType assets) =
    filteredAssets searchTerm filterType assets.
Proof.
  unfold filteredAssets. split_and!.
  - apply sublist_filter.
  - intros a. rewrite list_elem_of_filter, Is_true_true, andb_true_iff.
    unfold matchesSearch, matchesType.
    rewrite !orb_true_iff, !includes_spec, !String.eqb_eq. tauto.
  - induction assets as [|a l IH]; [done|].
    rewrite filter_cons, decide_True, IH; [done|].
    unfold matchesSearch, matchesType. simpl.
    by destruct (toLowerCase (Asset.name a)).
  - unfold matchesSearch. by rewrite toLowerCase_idemp.
  - induction assets as [|a l IH]; [done|].
    rewrite filter_cons. destruct (decide _) as [Ha|Ha]; [|done].
    by rewrite filter_cons, decide_True, IH.
Qed.

Lemma set_from_spec xs : forall seen,
  NoDup seen ->
  NoDup (set_from seen xs) /\
  (forall x, x ∈ set_from seen xs <-> x ∈ seen \/ x ∈ xs) /\
  seen `prefix_of` set_from seen xs.
Proof.
  induction xs as [|x xs IH]; intros seen Hnd; simpl.
  - split_and!; [done| |done]. intros y. rewrite elem_of_nil. tauto.
  - destruct (array_includes seen x) eqn:E.
    + apply array_includes_In in E.
      destruct (IH seen Hnd) as (H1 & H2 & H3). split_and!; [done| |done].
      intros y. rewrite H2, elem_of_cons. split; [tauto|].
      intros [?|[->|?]]; tauto.
    + assert (Hx : x ∉ seen).
      { intros Hx%array_includes_In. congruence. }
      assert (Hnd' : NoDup (seen ++ [x])).
      { apply NoDup_app. split_and!; [done| |apply NoDup_singleton].
        intros y Hy Hy'%list_elem_of_singleton. by subst. }
      destruct (IH _ Hnd') as (H1 & H2 & H3). split_and!; [done| |].
      * intros y. rewrite H2, elem_of_app, list_elem_of_singleton,
          elem_of_cons. tauto.
      * etrans; [|exact H3]. by apply prefix_app_r.
Qed.

(** The type list of the page names each type of the assets once, and
    nothing else; choosing any of its entries, with no search term, shows at
    least one asset. *)
Theorem assetTypes_spec (assets : list Asset.t) :
  NoDup (assetTypes assets) /\
  (forall t, t ∈ assetTypes assets <-> exists a, a ∈ assets /\ Asset.type a = t) /\
  (forall t, t ∈ assetTypes assets -> filteredAssets "" t assets <> []).
Proof.
  unfold assetTypes.
  destruct (set_from_spec (Asset.type <$> assets) [] (NoDup_nil_2))
    as (Hnd & Hmem & _).
  assert (Htypes : forall t, t ∈ set_from [] (Asset.type <$> assets) <->
                             exists a, a ∈ assets /\ Asset.type a = t).
  { intros t. rewrite Hmem, elem_of_nil, list_elem_of_fmap.
    split.
    - intros [[]|(a & -> & Ha)]. by exists a.
    - intros (a & Ha & <-). right. by exists a. }
  split_and!; [done | done |].
  intros t (a & Ha & Ht)%Htypes Hnil.
  assert (a ∈ filteredAssets "" t assets) as Hin.
  { unfold filteredAssets. apply list_elem_of_filter. split; [|done].
    unfold matchesSearch, matchesType. simpl.
    rewrite Ht, String.eqb_refl, orb_true_r.
    by destruct (toLowerCase (Asset.name a)). }
  rewrite Hnil in Hin. by apply elem_of_nil in Hin.
Qed.

(** ** Sorting the table *)

Lemma string_compare_Lt_trans a : forall b c,
  String.compare a b = Lt -> String.compare b c = Lt ->
  String.compare a c = Lt.
Proof.
  induction a as [|x a IH]; intros [|y b] [|z c]; simpl; try done.
  unfold Ascii.compare.
  destruct (N.compare_spec (N_of_ascii x) (N_of_ascii y)) as [Hxy|Hxy|Hxy],
    (N.compare_spec (N_of_ascii y) (N_of_ascii z)) as [Hyz|Hyz|Hyz],
    (N.compare_spec (N_of_ascii x) (N_of_ascii z)) as [Hxz|Hxz|Hxz];
    try done; try lia.
  apply IH.
Qed.

Lemma ltb_Lt a b : String.ltb a b = true <-> String.compare a b = Lt.
Proof. unfold String.ltb. by destruct (String.compare a b). Qed.

Lemma ltb_asym a b : String.ltb a b = true -> String.ltb b a = false.
Proof.
  rewrite ltb_Lt. intros H. unfold String.ltb.
  by rewrite String.compare_antisym, H.
Qed.

Lemma ltb_irrefl a : String.ltb a a = false.
Proof.
  destruct (String.ltb a a) eqn:E; [|done].
  by rewrite (ltb_asym _ _ E) in E.
Qed.

(** Neither string is below the other: they are the same string. *)
Lemma ltb_connected a b :
  String.ltb a b = false -> String.ltb b a = false -> a = b.
Proof.
  unfold String.ltb. rewrite (String.compare_antisym a b).
  destruct (String.compare b a) eqn:E; simpl; try done.
  intros _ _. symmetry. by apply String.compare_eq_iff.
Qed.

Lemma leb_trans a b c :
  String.ltb b a = false -> String.ltb c b = false -> String.ltb c a = false.
Proof.
  intros Hab Hbc. destruct (String.ltb c a) eqn:Hca; [|done].
  apply ltb_Lt in Hca.
  destruct (String.compare c b) eqn:Hcb.
  - apply String.compare_eq_iff in Hcb. subst c.
    apply ltb_Lt in Hca. congruence.
  - apply ltb_Lt in Hcb. congruence.
  - assert (String.compare b c = Lt) as Hbc'
      by (by rewrite String.compare_antisym, Hcb).
    pose proof (string_compare_Lt_trans _ _ _ Hbc' Hca) as Hba.
    apply ltb_Lt in Hba. congruence.
Qed.

Section InsertionSort.

Context {A : Type} (compareFn : A -> A -> Z).

Lemma sort_insert_Permutation x l : sort_insert compareFn x l ≡ₚ x :: l.
Proof.
  induction l as [|y l IH]; simpl; [done|].
  destruct (0 <? compareFn x y); [|done].
  rewrite IH. apply Permutation_swap.
Qed.

Lemma array_sort_Permutation l : array_sort compareFn l ≡ₚ l.
Proof.
  induction l as [|x l IH]; simpl; [done|].
  unfold array_sort in *. simpl. by rewrite sort_insert_Permutation, IH.
Qed.

(** A relation that the comparator respects: whatever the comparator does
    not put after may stand before. *)
Context (R : relation A).
Hypothesis R_before : forall x y, (0 <? compareFn x y) = false -> R x y.
Hypothesis R_after : forall x y, (0 <? compareFn x y) = true -> R y x.
Hypothesis R_trans : Transitive R.

Lemma sort_insert_sorted x l :
  StronglySorted R l -> StronglySorted R (sort_insert compareFn x l).
Proof.
  induction l as [|y l IH]; intros Hl; simpl.
  - repeat constructor.
  - apply StronglySorted_inv in Hl as [Hl Hy].
    destruct (0 <? compareFn x y) eqn:E.
    + constructor; [by apply IH|].
      rewrite sort_insert_Permutation.
      constructor; [by apply R_after | done].
    + constructor; [by constructor|].
      constructor; [by apply R_before|].
      eapply Forall_impl; [exact Hy|]. simpl. intros z Hz.
      etrans; [by apply R_before | done].
Qed.

Lemma array_sort_sorted l : StronglySorted R (array_sort compareFn l).
Proof.
  induction l as [|x l IH]; [constructor|].
  unfold array_sort in *. simpl. by apply sort_insert_sorted.
Qed.

(** The sort is stable: elements that the comparator does not tell apart
    keep their order. *)
Lemma sort_insert_filter (P : A -> Prop) `{!forall x, Decision (P x)} x l :
  (forall y, P x -> P y -> (0 <? compareFn x y) = false) ->
  filter P (sort_insert compareFn x l) = filter P (x :: l).
Proof.
  intros Hx. induction l as [|y l IH]; simpl; [done|].
  destruct (0 <? compareFn x y) eqn:E; [|done].
  rewrite filter_cons, IH, !filter_cons.
  destruct (decide (P y)) as [Hy|Hy]; [|done].
  destruct (decide (P x)) as [Hx'|Hx']; [|done].
  rewrite (Hx y Hx' Hy) in E. done.
Qed.

Lemma array_sort_filter (P : A -> Prop) `{!forall x, Decision (P x)} l :
  (forall x y, P x -> P y -> (0 <? compareFn x y) = false) ->
  filter P (array_sort compareFn l) = filter P l.
Proof.
  intros HP. induction l as [|x l IH]; [done|].
  unfold array_sort in *. simpl.
  rewrite sort_insert_filter by (intros y; apply HP).
  by rewrite !filter_cons, IH.
Qed.

End InsertionSort.

Lemma in_order_trans field direction : Transitive (in_order field direction).
Proof.
  intros a b c. destruct direction; simpl; intros Hab Hbc.
  - by apply (leb_trans _ (sort_key field b)).
  - by apply (leb_trans _ (sort_key field b)).
Qed.

Section SortedTable.

Variable number_lt : string -> string -> bool.

Lemma value_lt_key field a b :
  field <> by_cost ->
  value_lt number_lt field a b =
    String.ltb (sort_key field a) (sort_key field b).
Proof. by destruct field. Qed.

Lemma compareAssets_before field direction a b :
  field <> by_cost ->
  (0 <? compareAssets number_lt field direction a b) = false ->
  in_order field direction a b.
Proof.
  intros Hf. unfold compareAssets. rewrite !value_lt_key by done.
  destruct (String.ltb (sort_key field a) (sort_key field b)) eqn:Eab,
    (String.ltb (sort_key field b) (sort_key field a)) eqn:Eba,
    direction; simpl; try done.
  all: by rewrite (ltb_asym _ _ Eab) in Eba.
Qed.

Lemma compareAssets_after field direction a b :
  field <> by_cost ->
  (0 <? compareAssets number_lt field direction a b) = true ->
  in_order field direction b a.
Proof.
  intros Hf. unfold compareAssets. rewrite !value_lt_key by done.
  destruct (String.ltb (sort_key field a) (sort_key field b)) eqn:Eab,
    (String.ltb (sort_key field b) (sort_key field a)) eqn:Eba,
    direction; simpl; try done.
  all: by rewrite (ltb_asym _ _ Eab) in Eba.
Qed.

Lemma compareAssets_same_key field direction a b :
  field <> by_cost -> sort_key field a = sort_key field b ->
  (0 <? compareAssets number_lt field direction a b) = false.
Proof.
  intros Hf Hk. unfold compareAssets. rewrite !value_lt_key by done.
  rewrite Hk, ltb_irrefl. done.
Qed.

(** The table shows the assets it is given, each once, whatever the sort
    field.  Sorted by name, type or tag it shows them in the order of the
    strings of this field, ascending or descending, and assets with the
    same string keep the order in which they were given. *)
Theorem sortedAssets_sorted (field : SortField) (direction : SortDirection)
    (assets : list Asset.t) :
  sortedAssets number_lt field direction assets ≡ₚ assets /\
  (field <> by_cost ->
   StronglySorted (in_order field direction)
     (sortedAssets number_lt field direction assets) /\
   forall k,
     filter (fun a => sort_key field a = k)
       (sortedAssets number_lt field direction assets) =
     filter (fun a => sort_key field a = k) assets).
Proof.
  split; [apply array_sort_Permutation|]. intros Hf. split.
  - apply array_sort_sorted.
    + intros x y. by apply compareAssets_before.
    + intros x y. by apply compareAssets_after.
    + apply in_order_trans.
  - intros k. apply array_sort_filter.
    intros x y Hx Hy. apply compareAssets_same_key; congruence.
Qed.

(** A second click on the header of the sorted column turns the table
    upside down, when no two assets have the same string in this column (as
    it is for the tag); a click on another header sorts by it, ascending. *)
Theorem sort_toggle_reverses (field other : SortField)
    (direction : SortDirection) (assets : list Asset.t) :
  field <> by_cost -> NoDup (sort_key field <$> assets) ->
  (let '(field', direction') := handleSort (field, direction) field in
   sortedAssets number_lt field' direction' assets =
     reverse (sortedAssets number_lt field direction assets)) /\
  (other <> field -> handleSort (field, direction) other = (other, asc)).
Proof.
  intros Hf Hnd. split.
  - assert (Heq : SortField_eqb field field = true) by by destruct field.
    unfold handleSort. rewrite Heq.
    set (flipped := match direction with asc => desc | desc => asc end).
    destruct (sortedAssets_sorted field direction assets) as [Hp [Hs _]];
      [done|].
    destruct (sortedAssets_sorted field flipped assets) as [Hp' [Hs' _]];
      [done|].
    apply (StronglySorted_unique_strong (in_order field flipped)).
    + intros x1 x2 Hx1 Hx2 H12 H21.
      apply (NoDup_fmap_eq (sort_key field) assets); [done| | |].
      * by rewrite <- Hp'.
      * rewrite <- Hp, <- (reverse_Permutation _). done.
      * destruct direction; simpl in H12, H21; by apply ltb_connected.
    + done.
    + apply Sorted_StronglySorted; [apply in_order_trans|].
      apply StronglySorted_Sorted, Sorted_reverse in Hs.
      destruct direction; exact Hs.
    + by rewrite Hp', reverse_Permutation, Hp.
  - intros Hne. unfold handleSort.
    by destruct field, other.
Qed.

End SortedTable.

Lemma sort_toggle_reverses_witness :
  let a := Asset.mk 1 "Desk" "furniture" "F-1" None "80.00" None in
  let b := Asset.mk 2 "Lamp" "furniture" "F-2" None "15.00" None in
  let c := Asset.mk 3 "Chair" "furniture" "F-0" None "45.50" None in
  sortedAssets (fun _ _ => false) by_tag desc [a; b; c] =
    reverse (sortedAssets (fun _ _ => false) by_tag asc [a; b; c]).
Proof.
  intros a b c.
  assert (Hnd : NoDup (sort_key by_tag <$> [a; b; c])).
  { apply (bool_decide_unpack _). vm_compute. exact I. }
  exact (proj1 (sort_toggle_reverses (fun _ _ => false) by_tag by_name asc
                  [a; b; c] ltac:(discriminate) Hnd)).
Defined.

Lemma sortedAssets_sorted_witness :
  let a := Asset.mk 1 "Desk" "furniture" "F-1" None "80.00" None in
  let b := Asset.mk 2 "Lamp" "furniture" "F-2" None "15.00" None in
  let c := Asset.mk 3 "Chair" "furniture" "F-0" None "45.50" None in
  StronglySorted (in_order by_name asc)
    (sortedAssets (fun _ _ => false) by_name asc [a; b; c]) /\
  sortedAssets (fun _ _ => false) by_name asc [a; b; c] = [c; a; b].
Proof.
  intros a b c. split; [|reflexivity].
  exact (proj1 (proj2 (sortedAssets_sorted (fun _ _ => false) by_name asc
                         [a; b; c]) ltac:(discriminate))).
Defined.

(** ** The form and the two schemas of the server *)

(** What the form lets through, the server takes: an object accepted by
    [formSchema] is accepted by [insertAssetSchema] and by its partial
    variant, with the same fields, so that neither [POST /api/assets] nor
    [PUT /api/assets/:id] answers it with a validation error. *)
Theorem form_accepted_by_server {engine : Engine}
    (o : gmap string JsVal) (v : FormData.t) :
  formSchema o = inr v ->
  insertAssetSchema o =
    inr (InsertAsset.mk (FormData.name v) (FormData.type v) (FormData.tag v)
           (FormData.serialNumber v) (FormData.cost v)
           (Some <$> FormData.acquisitionDate v)) /\
  insertAssetSchema_partial o =
    inr (PartialAsset.mk (Some (FormData.name v)) (Some (FormData.type v))
           (Some (FormData.tag v)) (FormData.serialNumber v)
           (Some (FormData.cost v)) (Some <$> FormData.acquisitionDate v)) /\
  (forall s, status (post_asset s o).2 <> 400) /\
  (forall s i, status (put_asset s (Some i) o).2 <> 400).
Proof.
  intros H.
  assert (Hs : insertAssetSchema o =
    inr (InsertAsset.mk (FormData.name v) (FormData.type v) (FormData.tag v)
           (FormData.serialNumber v) (FormData.cost v)
           (Some <$> FormData.acquisitionDate v)) /\
    insertAssetSchema_partial o =
    inr (PartialAsset.mk (Some (FormData.name v)) (Some (FormData.type v))
           (Some (FormData.tag v)) (FormData.serialNumber v)
           (Some (FormData.cost v)) (Some <$> FormData.acquisitionDate v))).
  { unfold formSchema, insertAssetSchema, insertAssetSchema_partial in *.
    unfold z_cost in H.
    destruct (prop o "name"); simpl in H; try discriminate.
    destruct (prop o "type"); simpl in H; try discriminate.
    destruct (prop o "tag"); simpl in H; try discriminate.
    destruct (prop o "cost"); simpl in H;
      try (destruct (prop o "serialNumber"); discriminate).
    destruct (cost_refine _); simpl in H;
      [|destruct (prop o "serialNumber"); discriminate].
    destruct (prop o "serialNumber"); simpl in H; try discriminate;
      destruct (prop o "acquisitionDate"); simpl in H; try discriminate;
      injection H as <-; done. }
  destruct Hs as [Hs Hp]. split_and!; [done | done | |].
  - intros s. unfold post_asset. rewrite Hs. simpl.
    destruct (getAssetByTag s _) as [[a|]|s']; [done| |done].
    by destruct (createAsset s _) as [[s' r]|s'].
  - intros s i. unfold put_asset. rewrite Hp.
    match goal with
    | |- context [match ?c with Ok _ => _ | Throw _ => _ end] =>
        destruct c as [existing|s']
    end; [|done].
    match goal with |- context [if ?c then _ else _] => destruct c end;
      [done|].
    by destruct (updateAsset s i _) as [[s' [r|]]|s'].
Qed.

Lemma form_accepted_by_server_witness :
  let o : gmap string JsVal :=
    {[ "name" := JString "Lamp"; "type" := JString "furniture";
       "tag" := JString "F-2"; "cost" := JString "15.00";
       "serialNumber" := JString ""; "acquisitionDate" := JString "" ]} in
  let s := {| rows := []; next_id := 1 |} in
  status (post_asset (engine := plain_engine) s o).2 <> 400 /\
  status (put_asset (engine := plain_engine) s (Some 1) o).2 <> 400.
Proof.
  intros o s.
  pose proof (form_accepted_by_server (engine := plain_engine) o
                (FormData.mk "Lamp" "furniture" "F-2" (Some (Some "")) "15.00"
                   (Some "")) eq_refl) as (_ & _ & Hpost & Hput).
  split; [apply Hpost | apply Hput].
Defined.
